(** * StrokeGPT background-mode engine: actuator adapters, bridge and loops

    A shallow embedding of [handy_controller.py], [lovense_controller.py],
    [llm_service.py] and [background_modes.py].

    Conventions.
    - Python floats are modelled exactly as [Q]; every concrete input used
      below is exactly representable, so the float operations on it are exact.
    - Python's [round] on a float rounds half to even ([py_round]).
    - A network call is recorded in an I/O log ([io.sent]) and its outcome is
      drawn from an oracle list ([io.net]).
    - Python values handed to [move] by the loops are [pyval]s: [None],
      a number, a string that [float()] accepts, or a value [float()] rejects. *)

From Stdlib Require Import ZArith QArith Qround Qabs List String Ascii Bool Lia Lqa.
Import ListNotations.
Open Scope Z_scope.

(* ------------------------------------------------------------------ *)
(** ** Python helpers *)

Inductive pyval : Type :=
| PNone
| PNum (q : Q)
| PNumStr (q : Q)
| PBad.

(** [v == 0] in Python: only numbers compare equal to [0]. *)
Definition py_eq_zero (v : pyval) : bool :=
  match v with
  | PNum q => Qeq_bool q 0
  | _ => false
  end.

Definition py_is_none (v : pyval) : bool :=
  match v with PNone => true | _ => false end.

(** [float(v)]: [None] raises TypeError, a rejected value raises ValueError. *)
Definition py_float (v : pyval) : option Q :=
  match v with
  | PNum q | PNumStr q => Some q
  | _ => None
  end.

(** Python's builtin [max(a, b)] returns [b] only when [b > a]. *)
Definition py_max (a b : Q) : Q := if Qle_bool b a then a else b.
(** Python's builtin [min(a, b)] returns [b] only when [b < a]. *)
Definition py_min (a b : Q) : Q := if Qle_bool a b then a else b.

(** Python's [round(x)] on a float: nearest integer, ties to even. *)
Definition py_round (q : Q) : Z :=
  let f := Qfloor q in
  match Qcompare (q - inject_Z f) (1 # 2) with
  | Lt => f
  | Gt => f + 1
  | Eq => if Z.even f then f else f + 1
  end.

(* ------------------------------------------------------------------ *)
(** ** Network I/O *)

Inductive net_outcome : Type :=
| NetResponse (status : Z)
| NetRequestException.

Inductive Body : Type :=
| BEmpty
| BMode (mode : Z)
| BSlide (min max : Z)
| BVelocity (velocity : Z).

(** Lovense LAN v2 commands. *)
Inductive LovCmd : Type :=
| LVibrate (value : Z)
| LThrust (value position : Z)
| LStop.

(** Lovense legacy [GET /command?cmd=...]: the command string
    ["Vibrate:v"], ["Thrust:v:p"] or ["Stop"], kept structured. *)
Inductive LegacyCmd : Type :=
| LegVibrate (value : Z)
| LegThrust (value position : Z)
| LegStop.

Inductive Request : Type :=
| Put (path : string) (body : Body)
| PostV2 (cmds : list LovCmd)
| GetLegacy (cmd : LegacyCmd).

Record io : Type := mkio { sent : list Request; net : list net_outcome }.

Definition IO (A : Type) : Type := io -> A * io.

Definition ret {A} (a : A) : IO A := fun w => (a, w).
Definition bind {A B} (m : IO A) (k : A -> IO B) : IO B :=
  fun w => let (a, w') := m w in k a w'.

Notation "x <- m ;; k" := (bind m (fun x => k))
  (at level 61, m at next level, right associativity).
Notation "m ;;; k" := (bind m (fun _ => k))
  (at level 61, right associativity).

(** Issue one request: log it and draw its outcome (a 200 once the oracle
    is exhausted). *)
Definition transmit (r : Request) : IO net_outcome :=
  fun w =>
    match net w with
    | [] => (NetResponse 200, mkio (sent w ++ [r]) [])
    | o :: rest => (o, mkio (sent w ++ [r]) rest)
    end.

(* ------------------------------------------------------------------ *)
(** ** HandyController *)

Module Handy.
Local Open Scope Q_scope.

Record HandyController : Type := mkHandy {
  handy_key : string;
  last_stroke_speed : Z;
  last_depth_pos : Z;
  last_relative_speed : Q;
  min_user_speed : Q;
  max_user_speed : Q;
  max_handy_depth : Q;
  min_handy_depth : Q
}.

(** [__init__] with a key. *)
Definition init (key : string) : HandyController :=
  mkHandy key 0%Z 50%Z 50 10 80 100 0.

Definition update_settings (h : HandyController) (min_speed max_speed min_depth max_depth : Q)
  : HandyController :=
  mkHandy (handy_key h) (last_stroke_speed h) (last_depth_pos h) (last_relative_speed h)
          min_speed max_speed max_depth min_depth.

Definition key_set (h : HandyController) : bool :=
  negb (String.eqb (handy_key h) ""%string).

(** [_send_command]: a PUT through the retrying session; a
    [RequestException] is caught and logged, the response is ignored. *)
Definition _send_command (h : HandyController) (path : string) (body : Body) : IO unit :=
  if key_set h then
    _ <- transmit (Put path body) ;; ret tt
  else ret tt.

Definition _safe_percent (p : pyval) : Q :=
  match py_float p with
  | None => 0
  | Some q => py_max 0 (py_min 100 q)
  end.

(** The zone computed from depth and range, before clamping:
    [(min_zone_abs, max_zone_abs)]. *)
Definition zone (h : HandyController) (depth stroke_range : pyval) : Q * Q :=
  let relative_pos_pct := _safe_percent depth in
  let absolute_center_pct :=
    min_handy_depth h + (max_handy_depth h - min_handy_depth h) * (relative_pos_pct / 100) in
  let calibrated_range_width := max_handy_depth h - min_handy_depth h in
  let relative_range_pct := _safe_percent stroke_range in
  let span_abs := (calibrated_range_width * (relative_range_pct / 100)) / 2 in
  (absolute_center_pct - span_abs, absolute_center_pct + span_abs).

(** The zone clamped to the calibration bounds. *)
Definition clamped_zone (h : HandyController) (depth stroke_range : pyval) : Q * Q :=
  let (min_zone_abs, max_zone_abs) := zone h depth stroke_range in
  (py_max (min_handy_depth h) min_zone_abs, py_min (max_handy_depth h) max_zone_abs).

(** The [slide] window sent to the device: [(slide_min, slide_max)]. *)
Definition slide_window (h : HandyController) (depth stroke_range : pyval) : Z * Z :=
  let (clamped_min_zone, clamped_max_zone) := clamped_zone h depth stroke_range in
  let slide_min := py_round (100 - clamped_max_zone) in
  let slide_max := py_round (100 - clamped_min_zone) in
  let slide_max := if (slide_min >=? slide_max)%Z then (slide_min + 2)%Z else slide_max in
  let slide_max := Z.min 100%Z slide_max in
  let slide_min := Z.max 0%Z slide_min in
  (slide_min, slide_max).

(** The calibrated speed before [int(round(...))]. *)
Definition raw_speed (h : HandyController) (speed : pyval) : Q :=
  let relative_speed_pct := _safe_percent speed in
  let speed_range_width := max_user_speed h - min_user_speed h in
  min_user_speed h + speed_range_width * (relative_speed_pct / 100).

Definition final_physical_speed (h : HandyController) (speed : pyval) : Z :=
  py_round (raw_speed h speed).

Definition move (h : HandyController) (speed depth stroke_range : pyval)
  : IO HandyController :=
  if negb (key_set h) then ret h
  else if negb (py_is_none speed) && py_eq_zero speed then
    _send_command h "hamp/stop" BEmpty ;;;
    ret (mkHandy (handy_key h) 0%Z (last_depth_pos h) 0
                 (min_user_speed h) (max_user_speed h) (max_handy_depth h) (min_handy_depth h))
  else if py_is_none speed || py_is_none depth || py_is_none stroke_range then
    ret h
  else
    _send_command h "mode" (BMode 0%Z) ;;;
    _send_command h "hamp/start" BEmpty ;;;
    let (slide_min, slide_max) := slide_window h depth stroke_range in
    _send_command h "slide" (BSlide slide_min slide_max) ;;;
    let v := final_physical_speed h speed in
    _send_command h "hamp/velocity" (BVelocity v) ;;;
    ret (mkHandy (handy_key h) v (py_round (_safe_percent depth)) (_safe_percent speed)
                 (min_user_speed h) (max_user_speed h) (max_handy_depth h) (min_handy_depth h)).

Definition stop (h : HandyController) : IO HandyController :=
  move h (PNum 0) PNone PNone.

End Handy.

(* ------------------------------------------------------------------ *)
(** ** LovenseController *)

Module Lovense.
Local Open Scope Q_scope.

Record LovenseController : Type := mkLovense {
  token : string;
  last_stroke_speed : Q;
  last_relative_speed : Q;
  last_depth_pos : Q;
  min_user_speed : Q;
  max_user_speed : Q;
  min_depth : Q;
  max_depth : Q
}.

Definition init (tok : string) : LovenseController :=
  mkLovense tok 0 0 50 10 80 0 100.

Definition is_configured (l : LovenseController) : bool :=
  negb (String.eqb (token l) ""%string).

Definition set_speeds (l : LovenseController) (stroke rel depth : Q) : LovenseController :=
  mkLovense (token l) stroke rel depth (min_user_speed l) (max_user_speed l)
            (min_depth l) (max_depth l).

Definition _safe_percent (value : pyval) (default : Q) : Q :=
  match value with
  | PNone => default
  | _ => match py_float value with
         | None => default
         | Some q => py_max 0 (py_min 100 q)
         end
  end.

Definition _send_v2 (l : LovenseController) (commands : list LovCmd) : IO bool :=
  if negb (is_configured l) then ret false
  else
    o <- transmit (PostV2 commands) ;;
    match o with
    | NetResponse s => ret ((200 <=? s)%Z && (s <? 300)%Z)
    | NetRequestException => ret false
    end.

Definition _send_legacy (l : LovenseController) (command : LegacyCmd) : IO unit :=
  if negb (is_configured l) then ret tt
  else _ <- transmit (GetLegacy command) ;; ret tt.

Definition stop (l : LovenseController) : IO LovenseController :=
  if negb (is_configured l) then ret l
  else
    ok <- _send_v2 l [LStop] ;;
    (if ok then ret tt else _send_legacy l LegStop) ;;;
    ret (set_speeds l 0 0 (last_depth_pos l)).

Definition level (pct : Q) : Z :=
  Z.max 0%Z (Z.min 20%Z (py_round ((pct / 100) * 20))).

Definition move (l : LovenseController) (speed depth stroke_range : pyval)
  : IO LovenseController :=
  if negb (is_configured l) then ret l
  else if negb (py_is_none speed) && py_eq_zero speed then stop l
  else
    let speed_pct := _safe_percent speed (last_relative_speed l) in
    let depth_pct := _safe_percent depth (last_depth_pos l) in
    let stroke_pct := _safe_percent stroke_range 50 in
    let vibration_level := level speed_pct in
    let thrust :=
      if negb (Qle_bool stroke_pct 0)
      then [LThrust (level stroke_pct) (py_round depth_pct)] else [] in
    let commands := LVibrate vibration_level :: thrust in
    ok <- _send_v2 l commands ;;
    (if ok then ret tt
     else _send_legacy l (LegVibrate vibration_level) ;;;
          match thrust with
          | [LThrust v p] => _send_legacy l (LegThrust v p)
          | _ => ret tt
          end) ;;;
    ret (set_speeds l speed_pct speed_pct depth_pct).

End Lovense.

(* ------------------------------------------------------------------ *)
(** ** Strings *)

Open Scope string_scope.
Open Scope list_scope.

Definition chr (n : nat) : string := String (Ascii.ascii_of_nat n) EmptyString.
Definition dq : string := chr 34.
Definition nl : string := chr 10.

Fixpoint digits_aux (fuel n : nat) (acc : string) : string :=
  match fuel with
  | O => acc
  | S f =>
      let acc' := String (Ascii.ascii_of_nat (48 + n mod 10)) acc in
      if Nat.ltb n 10 then acc' else digits_aux f (n / 10) acc'
  end.

(** [str(n)] for a Python [int] [n >= 0]. *)
Definition string_of_nat (n : nat) : string := digits_aux (S n) n EmptyString.

(** [s.find(c)] and [s.rfind(c)]: the index of the first or last
    occurrence of [c], [-1] when absent. *)
Fixpoint find_char (c : Ascii.ascii) (s : string) : Z :=
  match s with
  | EmptyString => -1
  | String a r =>
      if Ascii.eqb a c then 0
      else let i := find_char c r in if Z.eqb i (-1) then -1 else i + 1
  end.

Fixpoint rfind_char (c : Ascii.ascii) (s : string) : Z :=
  match s with
  | EmptyString => -1
  | String a r =>
      let i := rfind_char c r in
      if Z.eqb i (-1) then (if Ascii.eqb a c then 0 else -1) else i + 1
  end.

(** [s[a:b]] for [0 <= a] and [0 <= b]. *)
Definition py_slice (s : string) (a b : Z) : string :=
  if Z.ltb a b then substring (Z.to_nat a) (Z.to_nat (b - a)) s else EmptyString.

(* ------------------------------------------------------------------ *)
(** ** LLMService (the Bridge) *)

Module Bridge.

#[local] Set Warnings "-register-all".

Inductive json : Type :=
| JNull
| JBool (b : bool)
| JNum (q : Q)
| JStr (s : string)
| JArr (l : list json)
| JObj (l : list (string * json)).

Fixpoint assoc (k : string) (l : list (string * json)) : option json :=
  match l with
  | [] => None
  | (k', v) :: r => if String.eqb k k' then Some v else assoc k r
  end.

(** The body of an HTTP response, as [response.json()] sees it. *)
Inductive http_body : Type :=
| BodyJson (data : json)
| BodyNotJson (decode_error : string).

(** The outcome of [session.post] (after the session's retries):
    a [RequestException] with its text, or a response with its status,
    the text [raise_for_status] would raise, and its body. *)
Inductive http_outcome : Type :=
| ConnError (error : string)
| HttpResponse (status : Z) (status_error : string) (body : http_body).

(** Python truthiness of a JSON value. *)
Definition truthy (v : json) : bool :=
  match v with
  | JNull => false
  | JBool b => b
  | JNum q => negb (Qeq_bool q 0)
  | JStr s => negb (String.eqb s "")
  | JArr l => match l with [] => false | _ => true end
  | JObj l => match l with [] => false | _ => true end
  end.

(** [d.get(k)] on a dict: [None] for a missing key. *)
Definition get (k : string) (l : list (string * json)) : json :=
  match assoc k l with Some v => v | None => JNull end.

(** The exceptions raised while the system prompt is built. *)
Inductive py_exc : Type :=
| AttributeError
| TypeError.

Definition err_result (chat : string) : json :=
  JObj [("chat", JStr chat); ("move", JNull); ("new_mood", JNull)].

(** [data["message"]["content"]], falling back on [data["response"]]
    when the first lookup raises [KeyError] or [TypeError]. *)
Definition extract_content (data : json) : option json :=
  match data with
  | JObj l =>
      match assoc "message" l with
      | Some (JObj m) =>
          match assoc "content" m with
          | Some c => Some c
          | None => assoc "response" l
          end
      | _ => assoc "response" l
      end
  | _ => None
  end.

Section TalkToLLM.

(** [json.loads]: the parsed value, or the [JSONDecodeError] text. *)
Variable json_loads : string -> json + string.

Definition _talk_to_llm (o : http_outcome) : json :=
  match o with
  | ConnError e => err_result ("LLM Connection Error: " ++ e)%string
  | HttpResponse status e body =>
      if Z.leb 400 status && Z.ltb status 600
      then err_result ("LLM Connection Error: " ++ e)%string
      else
        match body with
        | BodyNotJson e => err_result ("LLM JSON Decode Error: " ++ e)%string
        | BodyJson data =>
            match extract_content data with
            | Some (JStr content) =>
                match json_loads content with
                | inl v => v
                | inr e =>
                    let start := find_char "{"%char content in
                    let stop := rfind_char "}"%char content + 1 in
                    let fallback := err_result ("LLM Parse Error: " ++ e)%string in
                    if negb (Z.eqb start (-1)) && negb (Z.eqb stop (-1)) then
                      match json_loads (py_slice content start stop) with
                      | inl v => v
                      | inr _ => fallback
                      end
                    else fallback
                end
            | _ => err_result "LLM Response Format Error"
            end
        end
  end.

End TalkToLLM.

Section BuildPrompt.

(** Whether [sorted(..., reverse=True)] raises [TypeError] when it compares
    these score keys ([None] against a number, a string against a number,
    ...); which pairs it compares is fixed by CPython's sort. *)
Variable sort_keys_raise : list json -> bool.



End BuildPrompt.


End Bridge.

(* ------------------------------------------------------------------ *)
(** ** Events emitted by a behaviour loop *)

(** A [move] dict as [response.get("move")] returns it; [.get(k)] of a
    missing key is [None]. *)
Definition move_dict := list (string * pyval).

Fixpoint dict_get (k : string) (d : move_dict) : pyval :=
  match d with
  | [] => PNone
  | (k', v) :: r => if String.eqb k k' then v else dict_get k r
  end.

(** A Bridge reply that no step of a loop iteration raises on: a dict
    whose [chat] is a string and whose [move] is a dict, each [None] when
    missing or falsy. Replies of any other shape are JSON values in
    [LoopReply], which maps the well-shaped ones onto this record. *)
Record response : Type := mkResponse {
  r_chat : option string;
  r_move : option move_dict
}.

(** [response.get("move")] is truthy: present and a non-empty dict. *)
Definition has_move (r : response) : bool :=
  match r_move r with
  | Some (_ :: _) => true
  | _ => false
  end.

Inductive loop_event : Type :=
| LBridgeCall (prompt : string)
| LSend (msg : string)
| LMove (sp dp rng : pyval)
| LMood (mood : string)
| LClearSignal
| LSleep (seconds : Q).

(** What the environment supplies to one loop iteration: whether the stop
    event is set at the loop check, whether the edge signal has been raised
    since, the relayed message popped, the Bridge reply, the
    [random.choice] index and the [random.uniform] sleep. *)
Record iter_env : Type := mkEnv {
  ie_stop : bool;
  ie_signal : bool;
  ie_msg : option string;
  ie_response : response;
  ie_pick : nat;
  ie_sleep : Q
}.

(** Steps 4-5 of every loop: emit chat, dispatch the move, sleep. *)
Definition dispatch (r : response) (sleep : Q) : list loop_event :=
  (match r_chat r with
   | Some c => if String.eqb c "" then [] else [LSend c]
   | None => []
   end) ++
  (match r_move r with
   | Some m => [LMove (dict_get "sp" m) (dict_get "dp" m) (dict_get "rng" m)]
   | None => []
   end) ++ [LSleep sleep].

(* ------------------------------------------------------------------ *)
(** ** AutoModeThread.run *)

Module Supervisor.

(** How the mode function returned: normally, or by raising an
    [Exception], or a [BaseException] that is not an [Exception]. *)
Inductive loop_end : Type :=
| Returned
| RaisedException
| RaisedBaseException.

Inductive sup_event : Type :=
| SSend (msg : string)
| SSleep (seconds : Z)
| SLoop (e : loop_event)
| SActuatorStop
| SOnStop.

(** Which of [callbacks['send_message']], [callbacks['on_stop']] and
    [services['handy']] are present. *)
Record wiring : Type := mkWiring {
  w_send_message : bool;
  w_on_stop : bool;
  w_handy : bool
}.

(** [start_background_mode] in [app.py] supplies all three. *)
Definition app_wiring : wiring := mkWiring true true true.

Definition handback : string := "Okay, you're in control now.".

Definition teardown (w : wiring) : list sup_event :=
  (if w_handy w then [SActuatorStop] else []) ++
  (if w_on_stop w then [SOnStop] else []) ++
  (if w_send_message w then [SSend handback] else []).

(** [run]: the events, and whether an exception escapes the thread. *)
Definition run (w : wiring) (initial_message : string)
  (body : list loop_event) (how : loop_end) : list sup_event * bool :=
  let pre := (if w_send_message w then [SSend initial_message] else []) ++ [SSleep 2] in
  let escapes := match how with RaisedBaseException => true | _ => false end in
  (pre ++ map SLoop body ++ teardown w, escapes).

Fixpoint count (p : sup_event -> bool) (l : list sup_event) : nat :=
  match l with
  | [] => O
  | e :: r => if p e then S (count p r) else count p r
  end.

Definition is_actuator_stop (e : sup_event) : bool :=
  match e with SActuatorStop => true | _ => false end.

Definition is_on_stop (e : sup_event) : bool :=
  match e with SOnStop => true | _ => false end.

End Supervisor.

(** Number of Bridge calls in a trace. *)
Fixpoint bridge_calls (l : list loop_event) : nat :=
  match l with
  | [] => O
  | LBridgeCall _ :: r => S (bridge_calls r)
  | _ :: r => bridge_calls r
  end.

Fixpoint signal_clears (l : list loop_event) : nat :=
  match l with
  | [] => O
  | LClearSignal :: r => S (signal_clears r)
  | _ :: r => signal_clears r
  end.

(** [if user_message := ...: prompt += ...]: only a non-empty message. *)
Definition with_message (prompt : string) (msg : option string) (pre post : string) : string :=
  match msg with
  | Some m => if String.eqb m "" then prompt
              else (prompt ++ nl ++ nl ++ pre ++ dq ++ m ++ dq ++ nl ++ nl ++ post)%string
  | None => prompt
  end.

(* ------------------------------------------------------------------ *)
(** ** milking_mode_logic *)

Module Milking.

Definition base_prompt : string :=
  "You are in 'milking' mode. Your only goal is to make me cum. Invent a DIFFERENT, high-intensity move now.".

Definition closing : string := "That's it... give it all to me. Don't hold back.".

Definition iteration (e : iter_env) : list loop_event :=
  let prompt := with_message base_prompt (ie_msg e) "**USER FEEDBACK TO CONSIDER:** "
    "**INSTRUCTION:** The user is close to climax. Analyze their feedback and let it influence your final moves to push them over the edge." in
  let r := ie_response e in
  LBridgeCall prompt ::
  (if has_move r then dispatch r (ie_sleep e) else [LSleep 1]).

(** [for _ in range(k): if stop_event.is_set(): break; ...]: the events and
    whether the loop broke on the stop event. *)
Fixpoint iters (k i : nat) (env : nat -> iter_env) : list loop_event * bool :=
  match k with
  | O => ([], false)
  | S k' =>
      let e := env i in
      if ie_stop e then ([], true)
      else let (evs, broke) := iters k' (S i) env in (iteration e ++ evs, broke)
  end.

(** [draw] is the value of [random.randint(6, 9)], evaluated once;
    [stop_after] is whether the stop event was set after the last
    iteration's check. *)
Definition milking_mode_logic (draw : Z) (env : nat -> iter_env) (stop_after : bool)
  : list loop_event :=
  let (evs, broke) := iters (Z.to_nat draw) O env in
  let stop_set := broke || stop_after in
  evs ++ (if negb stop_set then [LSend closing; LSleep 4] else []).

End Milking.

(* ------------------------------------------------------------------ *)
(** ** milking_mode_logic on the Bridge's JSON replies *)

(** [Milking] takes the reply as a [response] that always has a string or
    no [chat] and a dict or no [move]. [get_chat_response] returns whatever
    [json.loads] gave, or raises while building the prompt; here the reply
    is that JSON value (or the exception), and each step that can raise on
    it is kept: [response.get] on a reply that is not a dict,
    [send_message] ([add_message_to_queue], whose [re.sub] needs a string)
    on a [chat] that is not a string, and [move_data.get] on a [move] that
    is not a dict. *)
Module LoopReply.

Section Replies.

(** Which strings [float()] accepts, and the value it gives. *)
Variable float_of_str : string -> option Q.

(** A JSON value passed to [handy_controller.move]: [True == 0] is false
    and [float(True)] is [1.0]; lists and dicts are refused by [float]. *)
Definition pyval_of_json (j : Bridge.json) : pyval :=
  match j with
  | Bridge.JNull => PNone
  | Bridge.JBool b => PNum (if b then 1%Q else 0%Q)
  | Bridge.JNum q => PNum q
  | Bridge.JStr s => match float_of_str s with Some q => PNumStr q | None => PBad end
  | Bridge.JArr _ | Bridge.JObj _ => PBad
  end.

(** [handy_controller.move(move_data.get("sp"), move_data.get("dp"),
    move_data.get("rng"))]. *)
Definition move_event (ml : list (string * Bridge.json)) : loop_event :=
  LMove (pyval_of_json (Bridge.get "sp" ml)) (pyval_of_json (Bridge.get "dp" ml))
        (pyval_of_json (Bridge.get "rng" ml)).

(** Steps 4-5 for the reply [j]: the events, and whether an exception was
    raised. [add_message_to_queue] appends a non-string [chat] to the UI
    list before [re.sub] raises; the trace records only the raise. *)
Definition handle_reply (j : Bridge.json) (sleep : Q) : list loop_event * bool :=
  if negb (Bridge.truthy j) then ([LSleep 1], false)
  else
    match j with
    | Bridge.JObj l =>
        let mv := Bridge.get "move" l in
        if negb (Bridge.truthy mv) then ([LSleep 1], false)
        else
          let ch := Bridge.get "chat" l in
          let (sent, raised) :=
            if Bridge.truthy ch then
              match ch with
              | Bridge.JStr c => ([LSend c], false)
              | _ => ([], true)
              end
            else ([], false) in
          if raised then (sent, true)
          else
            match mv with
            | Bridge.JObj ml => (sent ++ [move_event ml; LSleep sleep], false)
            | _ => (sent, true)
            end
    | _ => ([], true)
    end.

(** What one iteration sees: the stop event at the loop check, the
    relayed message popped, the result of [get_chat_response] (a JSON reply
    or the exception it raised) and the [random.uniform] sleep. *)
Record reply_env : Type := mkReplyEnv {
  re_stop : bool;
  re_msg : option string;
  re_reply : Bridge.json + Bridge.py_exc;
  re_sleep : Q
}.

Definition iteration (e : reply_env) : list loop_event * bool :=
  let prompt := with_message Milking.base_prompt (re_msg e) "**USER FEEDBACK TO CONSIDER:** "
    "**INSTRUCTION:** The user is close to climax. Analyze their feedback and let it influence your final moves to push them over the edge." in
  match re_reply e with
  | inr _ => ([LBridgeCall prompt], true)
  | inl j => let (evs, raised) := handle_reply j (re_sleep e) in (LBridgeCall prompt :: evs, raised)
  end.

Inductive loop_exit : Type :=
| Completed
| Broke
| Raised.

(** The [for] loop: the events and how it ended. *)
Fixpoint iters (k i : nat) (env : nat -> reply_env) : list loop_event * loop_exit :=
  match k with
  | O => ([], Completed)
  | S k' =>
      let e := env i in
      if re_stop e then ([], Broke)
      else
        let (evs, raised) := iteration e in
        if raised then (evs, Raised)
        else let (evs', ex) := iters k' (S i) env in (evs ++ evs', ex)
  end.

(** [milking_mode_logic]: the events, and whether it raised (then the
    closing line is not reached). *)
Definition milking_mode_logic (draw : Z) (env : nat -> reply_env) (stop_after : bool)
  : list loop_event * bool :=
  let (evs, ex) := iters (Z.to_nat draw) O env in
  match ex with
  | Raised => (evs, true)
  | Broke => (evs, false)
  | Completed => (evs ++ (if negb stop_after then [LSend Milking.closing; LSleep 4] else []), false)
  end.





End Replies.

End LoopReply.

(* ------------------------------------------------------------------ *)
(** ** edging_mode_logic *)

Module Edging.

Inductive phase : Type := BUILD_UP | TEASE | HOLD | RECOVERY | PULL_BACK.

Definition phase_eqb (a b : phase) : bool :=
  match a, b with
  | BUILD_UP, BUILD_UP | TEASE, TEASE | HOLD, HOLD
  | RECOVERY, RECOVERY | PULL_BACK, PULL_BACK => true
  | _, _ => false
  end.

Definition states : list phase := [BUILD_UP; TEASE; HOLD; RECOVERY].

(** [random.choice(states)] with the drawn index [i < len(states)]. *)
Definition py_choice (l : list phase) (i : nat) : phase := nth i l BUILD_UP.

(** The [prompts] and [moods] tables: [None] off the table. *)
Definition prompts (p : phase) : option string :=
  match p with
  | BUILD_UP => Some "Edging mode, phase: Build-up. Your goal is to slowly build my arousal. Invent a slow to medium intensity move."
  | TEASE => Some "Edging mode, phase: Tease. Invent a short, fast, shallow, or otherwise teasing move to keep me guessing."
  | HOLD => Some "Edging mode, phase: Hold. Maintain a medium, constant intensity. Don't go too fast or too slow. Be steady."
  | RECOVERY => Some "Edging mode, phase: Recovery. Stimulation should be very low. Invent a very slow and gentle move."
  | PULL_BACK => None
  end.

Definition moods (p : phase) : option string :=
  match p with
  | BUILD_UP => Some "Seductive"
  | TEASE => Some "Playful"
  | HOLD => Some "Confident"
  | RECOVERY => Some "Loving"
  | PULL_BACK => None
  end.

Definition reaction_prompt (n : nat) : string :=
  ("I am on the edge. I have been edged " ++ string_of_nat n ++
   " times. You must choose one of three reactions: 1. A hard 'Pull Back'. 2. A 'Hold'. 3. A risky 'Push Over'. Describe what you choose to do and provide the move.")%string.

Definition user_message_pre : string := "**USER MESSAGE TO CONSIDER:** ".
Definition user_message_post : string :=
  "**INSTRUCTION:** Analyze this message. Decide if you should alter your pattern or state in response to it. Then, describe your action and provide the next `move`.".

(** The loop's locals, plus the edge-signal event. *)
Record edge_state : Type := mkEdge {
  edge_count : nat;
  current_state : phase;
  signal : bool
}.

(** [start_background_mode] clears the signal before the thread starts. *)
Definition init : edge_state := mkEdge 0 BUILD_UP false.

(** One pass of the [while] body: the state after it, the phase the
    iteration ran with, and its events. *)
Definition iteration (st : edge_state) (e : iter_env) : edge_state * phase * list loop_event :=
  let is_set := signal st || ie_signal e in
  let '(count, cs, pre, prompt) :=
    if is_set then
      let c := S (edge_count st) in
      (c, PULL_BACK, [LClearSignal; LMood "Dominant"], reaction_prompt c)
    else
      let cs := match moods (current_state st) with
                | Some _ => current_state st
                | None => BUILD_UP
                end in
      let mood := match moods cs with Some m => m | None => "Seductive" end in
      let p := match prompts cs with Some p => p | None => "" end in
      (edge_count st, cs, [LMood mood],
       with_message p (ie_msg e) user_message_pre user_message_post) in
  let r := ie_response e in
  if has_move r then
    let next := if negb (phase_eqb cs PULL_BACK) then py_choice states (ie_pick e)
                else RECOVERY in
    (mkEdge count next false, cs, pre ++ [LBridgeCall prompt] ++ dispatch r (ie_sleep e))
  else
    (mkEdge count cs false, cs, pre ++ [LBridgeCall prompt; LSleep 1]).

(** [while not stop_event.is_set(): ...] over the supplied iterations:
    the events, the final state, and whether the loop exited on the stop
    event ([false]: still running when the supplied iterations ran out). *)
Fixpoint edging_loop (st : edge_state) (envs : list iter_env)
  : list loop_event * edge_state * bool :=
  match envs with
  | [] => ([], st, false)
  | e :: rest =>
      if ie_stop e then ([], st, true)
      else
        let '(st', _, evs) := iteration st e in
        let '(evs', st'', exited) := edging_loop st' rest in
        (evs ++ evs', st'', exited)
  end.

Definition closing (n : nat) : list loop_event :=
  [LSend ("You did so well, holding it in for " ++ string_of_nat n ++ " edges...")%string;
   LMood "Afterglow"].

(** The whole function, when it returns: the loop, then the closing block
    guarded by [if not stop_event.is_set()]. *)
Definition edging_mode_logic (envs : list iter_env) : option (list loop_event) :=
  let '(evs, st, exited) := edging_loop init envs in
  if exited then
    let stop_set := exited in
    Some (evs ++ (if negb stop_set then closing (edge_count st) else []))
  else None.

End Edging.

(* ------------------------------------------------------------------ *)
(** ** The relay queue: [deque(maxlen=5)] *)

Module Relay.

Definition maxlen : nat := 5.

(** [deque.append] on a bounded deque drops the leftmost item when full. *)
Definition append (q : list string) (x : string) : list string :=
  if Nat.ltb (List.length q) maxlen then q ++ [x] else tl q ++ [x].

Definition push_all (q : list string) (xs : list string) : list string :=
  fold_left append xs q.

(** [_check_for_user_message]: [popleft()], or [None] when empty. *)
Definition _check_for_user_message (q : list string) : option string * list string :=
  match q with
  | [] => (None, [])
  | x :: r => (Some x, r)
  end.

(** One pop per loop iteration, [n] iterations. *)
Fixpoint pop_n (n : nat) (q : list string) : list (option string) :=
  match n with
  | O => []
  | S n' => let (m, q') := _check_for_user_message q in m :: pop_n n' q'
  end.

End Relay.

(* ------------------------------------------------------------------ *)
(** ** Sample inputs *)

Module Samples.

(** The spec's calibration example: speed [20..80], depth [10..90]. *)
Definition h_example : Handy.HandyController :=
  Handy.update_settings (Handy.init "key") 20 80 10 90.

(** The controller's own defaults: speed [10..80], depth [0..100]. *)
Definition h_default : Handy.HandyController := Handy.init "key".

(** Speed bounds [20..85], whose midpoint is not an integer. *)
Definition h_odd : Handy.HandyController :=
  Handy.update_settings (Handy.init "key") 20 85 10 90.

Definition fresh : io := mkio [] [].

(** Every request fails with a [RequestException]. *)
Definition all_fail : io :=
  mkio [] [NetRequestException; NetRequestException; NetRequestException; NetRequestException].

Definition lov : Lovense.LovenseController := Lovense.init "token".

Definition no_move : response := mkResponse None None.

Definition a_move : response :=
  mkResponse (Some "Mmm.") (Some [("sp", PNum 40); ("dp", PNum 50); ("rng", PNum 60)]).

(** One loop iteration: stop event, edge signal, Bridge reply. *)
Definition env (stop sig : bool) (r : response) : iter_env :=
  mkEnv stop sig None r O 5.

End Samples.

(* ------------------------------------------------------------------ *)
(** ** More of the Handy adapter: [nudge], [get_position_mm], [mm_to_percent] *)

Module HandyCal.
Local Open Scope Q_scope.

Definition FULL_TRAVEL_MM : Q := 110.

(** The body of the [hdsp/xava] command. *)
Record xava : Type := mkXava {
  x_position : Q;
  x_velocity : Q;
  x_stopOnTarget : bool
}.

(** [nudge]: the target it returns, and the [hdsp/xava] request that
    [_send_command] issues ([None] without a key, as [_send_command]
    returns before sending). [direction] is compared with ["up"] and
    ["down"]; any other value (also [None]) leaves the target unchanged. *)
Definition nudge (h : Handy.HandyController) (direction : string)
  (min_depth_pct max_depth_pct current_pos_mm : Q) : Q * option (string * xava) :=
  let JOG_STEP_MM := 2 in
  let JOG_VELOCITY_MM_PER_SEC := 20 in
  let min_mm := FULL_TRAVEL_MM * min_depth_pct / 100 in
  let max_mm := FULL_TRAVEL_MM * max_depth_pct / 100 in
  let target_mm :=
    if String.eqb direction "up" then py_min (current_pos_mm + JOG_STEP_MM) max_mm
    else if String.eqb direction "down" then py_max (current_pos_mm - JOG_STEP_MM) min_mm
    else current_pos_mm in
  (target_mm,
   if Handy.key_set h
   then Some ("hdsp/xava"%string, mkXava target_mm JOG_VELOCITY_MM_PER_SEC true)
   else None).

(** The outcome of the [GET slide/position/absolute]: a
    [RequestException], or a response whose body [resp.json()] decoded. *)
Inductive position_outcome : Type :=
| PosRequestException
| PosJson (data : Bridge.json).

(** What [get_position_mm] does: return [None], return a float, or raise
    (an [AttributeError] from [.get] on a non-dict, or the error of
    [float()] on the value). *)
Inductive position_result : Type :=
| PosNone
| PosValue (q : Q)
| PosRaises.

Section GetPosition.

(** [float(s)] on a string: the value, or [None] for a [ValueError]. *)
Variable float_of_str : string -> option Q.

Definition get_position_mm (h : Handy.HandyController) (o : position_outcome) : position_result :=
  if negb (Handy.key_set h) then PosNone
  else
    match o with
    | PosRequestException => PosNone
    | PosJson (Bridge.JObj l) =>
        match Bridge.assoc "position" l with
        | None => PosValue 0
        | Some (Bridge.JNum q) => PosValue q
        | Some (Bridge.JBool b) => PosValue (if b then 1 else 0)
        | Some (Bridge.JStr s) =>
            match float_of_str s with Some q => PosValue q | None => PosRaises end
        | Some _ => PosRaises
        end
    | PosJson _ => PosRaises
    end.

End GetPosition.

Definition mm_to_percent (val : Q) : Z :=
  py_round ((val / FULL_TRAVEL_MM) * 100).

End HandyCal.

(** [LovenseController.mm_to_percent]. *)
Definition lovense_mm_to_percent (value : pyval) : Z :=
  py_round (Lovense._safe_percent value 0).


(** [200 <= resp.status_code < 300] for the outcome of one request. *)
Definition is_2xx (o : net_outcome) : bool :=
  match o with
  | NetResponse s => (200 <=? s)%Z && (s <? 300)%Z
  | NetRequestException => false
  end.

(** The [commands] list [Lovense.move] builds from its arguments. *)
Definition lovense_commands (l : Lovense.LovenseController) (speed depth stroke_range : pyval)
  : list LovCmd :=
  let speed_pct := Lovense._safe_percent speed (Lovense.last_relative_speed l) in
  let depth_pct := Lovense._safe_percent depth (Lovense.last_depth_pos l) in
  let stroke_pct := Lovense._safe_percent stroke_range 50 in
  LVibrate (Lovense.level speed_pct) ::
  (if negb (Qle_bool stroke_pct 0)
   then [LThrust (Lovense.level stroke_pct) (py_round depth_pct)] else []).

(** A Lovense command within the device's ranges: levels [0..20],
    positions [0..100]. *)
Definition lov_cmd_ok (c : LovCmd) : Prop :=
  match c with
  | LVibrate v => (0 <= v <= 20)%Z
  | LThrust v p => (0 <= v <= 20)%Z /\ (0 <= p <= 100)%Z
  | LStop => True
  end.

(* ------------------------------------------------------------------ *)
(** ** DeviceController *)

Module Device.

Definition lower_char (c : Ascii.ascii) : Ascii.ascii :=
  let n := Ascii.nat_of_ascii c in
  if Nat.leb 65 n && Nat.leb n 90 then Ascii.ascii_of_nat (Nat.add n 32) else c.

(** [str.lower] on ASCII text. *)
Fixpoint lower (s : string) : string :=
  match s with
  | EmptyString => EmptyString
  | String c r => String (lower_char c) (lower r)
  end.

Definition SUPPORTED_TYPES : list string := ["handy"; "lovense"].

(** [_normalize_type]: [None] and [""] are falsy. *)
Definition _normalize_type (value : option string) : string :=
  match value with
  | None => "handy"
  | Some v =>
      if String.eqb v "" then "handy"
      else
        let v := lower v in
        if existsb (String.eqb v) SUPPORTED_TYPES then v else "handy"
  end.

Record DeviceController : Type := mkDevice {
  handy : Handy.HandyController;
  lovense : Lovense.LovenseController;
  device_type : string
}.

Definition is_handy (d : DeviceController) : bool := String.eqb (device_type d) "handy".

Definition set_device_type (d : DeviceController) (value : option string) : DeviceController :=
  mkDevice (handy d) (lovense d) (_normalize_type value).

Definition move (d : DeviceController) (speed depth stroke_range : pyval) : IO DeviceController :=
  if is_handy d then
    h <- Handy.move (handy d) speed depth stroke_range ;; ret (mkDevice h (lovense d) (device_type d))
  else
    l <- Lovense.move (lovense d) speed depth stroke_range ;; ret (mkDevice (handy d) l (device_type d)).

Definition stop (d : DeviceController) : IO DeviceController :=
  if is_handy d then
    h <- Handy.stop (handy d) ;; ret (mkDevice h (lovense d) (device_type d))
  else
    l <- Lovense.stop (lovense d) ;; ret (mkDevice (handy d) l (device_type d)).

(** [nudge]: [None] unless the device is a Handy. *)
Definition nudge (d : DeviceController) (direction : string) (min_pct max_pct pos : Q)
  : option (Q * option (string * HandyCal.xava)) :=
  if negb (is_handy d) then None
  else Some (HandyCal.nudge (handy d) direction min_pct max_pct pos).

Definition get_position_mm (float_of_str : string -> option Q) (d : DeviceController)
  (o : HandyCal.position_outcome) : HandyCal.position_result :=
  if negb (is_handy d) then HandyCal.PosNone
  else HandyCal.get_position_mm float_of_str (handy d) o.

End Device.

(* ------------------------------------------------------------------ *)
(** ** More of the Bridge: [name_this_move] *)

Module BridgeUse.
Import Bridge.

Section WithLoads.
Variable json_loads : string -> json + string.


End WithLoads.

End BridgeUse.

(** The pattern step of [SettingsManager.save]: each liked pattern is
    appended unless a saved pattern already has its name. *)
Section Patterns.
Variable pattern : Type.
Variable p_name : pattern -> string.

Definition merge_patterns (patterns session_liked_patterns : list pattern) : list pattern :=
  fold_left
    (fun ps new_pattern =>
       if existsb (fun p => String.eqb (p_name p) (p_name new_pattern)) ps then ps
       else ps ++ [new_pattern])
    session_liked_patterns patterns.

End Patterns.

(* ------------------------------------------------------------------ *)
(** ** auto_mode_logic *)

Module Auto.

Definition base_prompt : string :=
  "You are in Automode. Your goal is to create a varied and exciting experience. Do something different now.".

Definition iteration (e : iter_env) : list loop_event :=
  let prompt := with_message base_prompt (ie_msg e) "**USER FEEDBACK TO CONSIDER:** "
    "**INSTRUCTION:** Analyze the user's feedback. Let it influence your next move and what you say. For example, if they say 'faster', increase the speed." in
  let r := ie_response e in
  LBridgeCall prompt ::
  (if has_move r then dispatch r (ie_sleep e) else [LSleep 1]).

(** [while not stop_event.is_set(): ...]: the events, and whether the loop
    exited on the stop event. *)
Fixpoint auto_loop (envs : list iter_env) : list loop_event * bool :=
  match envs with
  | [] => ([], false)
  | e :: rest =>
      if ie_stop e then ([], true)
      else let (evs, exited) := auto_loop rest in (iteration e ++ evs, exited)
  end.

(** The whole function, when it returns (there is no closing block). *)
Definition auto_mode_logic (envs : list iter_env) : option (list loop_event) :=
  let (evs, exited) := auto_loop envs in
  if exited then Some evs else None.

End Auto.

(** The number of loop iterations run before the stop event is seen. *)
Fixpoint iterations_before_stop (envs : list iter_env) : nat :=
  match envs with
  | [] => O
  | e :: rest => if ie_stop e then O else S (iterations_before_stop rest)
  end.

Fixpoint count_ev (p : loop_event -> bool) (l : list loop_event) : nat :=
  match l with
  | [] => O
  | e :: r => if p e then S (count_ev p r) else count_ev p r
  end.

Definition is_mood (e : loop_event) : bool :=
  match e with LMood _ => true | _ => false end.

Definition is_clear (e : loop_event) : bool :=
  match e with LClearSignal => true | _ => false end.

(* ------------------------------------------------------------------ *)
(** ** Chat commands and routes of [app.py] *)

Module App.
Local Open Scope Q_scope.

(** [needle in hay] on strings. *)
Fixpoint contains (needle hay : string) : bool :=
  if String.prefix needle hay then true
  else match hay with
       | EmptyString => false
       | String _ r => contains needle r
       end.

Definition any_in (cmds : list string) (text : string) : bool :=
  existsb (fun cmd => contains cmd text) cmds.

Definition STOP_COMMANDS : list string := ["stop"; "hold"; "halt"; "pause"; "freeze"; "wait"].
Definition AUTO_ON_WORDS : list string := ["take over"; "you drive"; "auto mode"].
Definition AUTO_OFF_WORDS : list string := ["manual"; "my turn"; "stop auto"].
Definition MILKING_CUES : list string := ["i'm close"; "make me cum"; "finish me"].
Definition EDGING_CUES : list string := ["edge me"; "start edging"; "tease and deny"].
Definition KONAMI : string := "up up down down left right left right b a".

(** What [_handle_chat_commands] does with the lower-cased message:
    the branch taken ([CmdNone] for [(False, None)]). *)
Inductive chat_command : Type :=
| CmdStop
| CmdKonami
| CmdAutoStart
| CmdAutoStop
| CmdEdging
| CmdMilking
| CmdNone.

(** [active] is whether [auto_mode_active_task] is set. *)
Definition _handle_chat_commands (text : string) (active : bool) : chat_command :=
  if any_in STOP_COMMANDS text then CmdStop
  else if contains KONAMI text then CmdKonami
  else if any_in AUTO_ON_WORDS text && negb active then CmdAutoStart
  else if any_in AUTO_OFF_WORDS text && active then CmdAutoStop
  else if any_in EDGING_CUES text then CmdEdging
  else if any_in MILKING_CUES text then CmdMilking
  else CmdNone.

(** [int(x)] on a float: truncation toward zero. *)
Definition py_int (q : Q) : Z :=
  if Qle_bool 0 q then Qfloor q else (- Qfloor (- q))%Z.

(** The [sp_range] and [dp_range] of [like_last_move_route]. *)
Definition like_ranges (last_speed last_depth : Q) : (Z * Z) * (Z * Z) :=
  ((py_int (py_max 0 (last_speed - 5)), py_int (py_min 100 (last_speed + 5))),
   (py_int (py_max 0 (last_depth - 5)), py_int (py_min 100 (last_depth + 5)))).

(** [set_depth_limits_route]: the two depths are ordered, then passed to
    [handy.update_settings] with the saved speed limits. *)
Definition set_depth_limits (h : Handy.HandyController) (min_speed max_speed : Q)
  (depth1 depth2 : Z) : Handy.HandyController :=
  Handy.update_settings h min_speed max_speed
    (inject_Z (Z.min depth1 depth2)) (inject_Z (Z.max depth1 depth2)).

End App.

(** The recorded state a Handy [move] keeps in range. *)
Definition handy_inv (h : Handy.HandyController) : Prop :=
  (0 <= Handy.last_relative_speed h <= 100)%Q /\ (0 <= Handy.last_depth_pos h <= 100)%Z.

(** The recorded state a Lovense [move] or [stop] keeps in range. *)
Definition lovense_inv (l : Lovense.LovenseController) : Prop :=
  (0 <= Lovense.last_relative_speed l <= 100)%Q /\
  (0 <= Lovense.last_depth_pos l <= 100)%Q /\
  (0 <= Lovense.last_stroke_speed l <= 100)%Q.

(** The last [n] items of a list. *)
Definition lastn {A} (n : nat) (l : list A) : list A := skipn (Nat.sub (List.length l) n) l.

(** A Handy request (a PUT of the Handy API); Lovense requests are the v2
    POST and the legacy GET. *)
Definition is_put (r : Request) : bool :=
  match r with Put _ _ => true | _ => false end.

(** An action only appends requests, each satisfying [P]. *)
Definition appends {A} (P : Request -> Prop) (m : IO A) : Prop :=
  forall w, exists new, sent (snd (m w)) = sent w ++ new /\ Forall P new.

(* ================================================================== *)
(** * Properties *)

Ltac io_cases :=
  repeat (cbn; match goal with
               | |- context [match ?l with [] => _ | _ :: _ => _ end] => destruct l
               | |- context [match ?o with NetResponse _ => _ | NetRequestException => _ end] =>
                   destruct o
               | |- context [match ?c with LVibrate _ => _ | LThrust _ _ => _ | LStop => _ end] =>
                   destruct c
               | |- context [if ?b then _ else _] => destruct b
               end).

(** A configured Lovense [move] whose speed is not the stop sentinel
    substitutes the defaults, sends the [commands] list first and records
    the defaulted speed and depth. *)
Lemma lovense_move_defaults (l : Lovense.LovenseController) (sp dp rng : pyval) (w : io) :
  Lovense.is_configured l = true ->
  py_eq_zero sp = false ->
  let s := Lovense._safe_percent sp (Lovense.last_relative_speed l) in
  let d := Lovense._safe_percent dp (Lovense.last_depth_pos l) in
  let r := Lovense._safe_percent rng 50 in
  exists w', Lovense.move l sp dp rng w = (Lovense.set_speeds l s s d, w') /\
             (List.length (sent w) < List.length (sent w'))%nat /\
             exists rest, sent w' = sent w ++
               PostV2 (LVibrate (Lovense.level s) ::
                       (if negb (Qle_bool r 0)
                        then [LThrust (Lovense.level r) (py_round d)] else [])) :: rest.
Proof.
  intros Hc Hz s d r. unfold Lovense.move.
  rewrite Hc, Hz, andb_false_r. cbn -[Lovense.set_speeds].
  unfold Lovense._send_v2, Lovense._send_legacy. rewrite Hc.
  destruct w as [snt nt]. unfold bind, transmit, ret. cbn -[Lovense.set_speeds].
  fold s d r.
  io_cases; eexists; (split; [reflexivity|]); cbn;
    (split; [repeat rewrite List.length_app; cbn; lia|]);
    eexists; rewrite <- ?app_assoc; reflexivity.
Qed.

(** C1 (as the code does it). A move with a missing field that is not the
    stop sentinel is a no-op for the Handy adapter: no request, no state
    change. The Lovense adapter, when configured, substitutes defaults for
    the missing fields (last relative speed, last depth, range 50), sends as
    its first request the commands built from them (vibrate at the speed's
    level, and thrust at the range's level towards the depth when the range
    is positive), and records the defaulted values. A missing range
    therefore sends a thrust at level 10. *)
Theorem C1_partial_move_handy_noop_lovense_defaults :
  (forall h sp dp rng w,
      py_eq_zero sp = false ->
      (py_is_none sp || py_is_none dp || py_is_none rng) = true ->
      Handy.move h sp dp rng w = (h, w)) /\
  (forall l sp dp rng w,
      Lovense.is_configured l = true ->
      py_eq_zero sp = false ->
      let s := Lovense._safe_percent sp (Lovense.last_relative_speed l) in
      let d := Lovense._safe_percent dp (Lovense.last_depth_pos l) in
      let r := Lovense._safe_percent rng 50 in
      exists w', Lovense.move l sp dp rng w = (Lovense.set_speeds l s s d, w') /\
                 (List.length (sent w) < List.length (sent w'))%nat /\
                 exists rest, sent w' = sent w ++
                   PostV2 (LVibrate (Lovense.level s) ::
                           (if negb (Qle_bool r 0)
                            then [LThrust (Lovense.level r) (py_round d)] else [])) :: rest) /\
  (forall l sp dp w,
      Lovense.is_configured l = true ->
      py_eq_zero sp = false ->
      let s := Lovense._safe_percent sp (Lovense.last_relative_speed l) in
      let d := Lovense._safe_percent dp (Lovense.last_depth_pos l) in
      exists rest, sent (snd (Lovense.move l sp dp PNone w)) = sent w ++
        PostV2 [LVibrate (Lovense.level s); LThrust 10 (py_round d)] :: rest).
Proof.
  split; [|split].
  - intros h sp dp rng w Hz Hn. unfold Handy.move.
    destruct (Handy.key_set h); cbn; [|reflexivity].
    rewrite Hz, andb_false_r, Hn. reflexivity.
  - exact lovense_move_defaults.
  - intros l sp dp w Hc Hz s d.
    destruct (lovense_move_defaults l sp dp PNone w Hc Hz) as [w' [E [_ [rest R]]]].
    exists rest. rewrite E. cbn [snd]. rewrite R. reflexivity.
Qed.

(** C1 witness: a Handy move without speed, a Lovense move without speed,
    and a Lovense move without range, on the sample controllers. *)
Lemma C1_partial_move_witness :
  Handy.move Samples.h_default PNone (PNum 50) (PNum 50) Samples.fresh
    = (Samples.h_default, Samples.fresh) /\
  (let s := Lovense._safe_percent PNone (Lovense.last_relative_speed Samples.lov) in
   let d := Lovense._safe_percent (PNum 50) (Lovense.last_depth_pos Samples.lov) in
   let r := Lovense._safe_percent (PNum 50) 50 in
   exists w', Lovense.move Samples.lov PNone (PNum 50) (PNum 50) Samples.fresh
                = (Lovense.set_speeds Samples.lov s s d, w') /\
              (List.length (sent Samples.fresh) < List.length (sent w'))%nat /\
              exists rest, sent w' = sent Samples.fresh ++
                PostV2 (LVibrate (Lovense.level s) ::
                        (if negb (Qle_bool r 0)
                         then [LThrust (Lovense.level r) (py_round d)] else [])) :: rest) /\
  (let s := Lovense._safe_percent (PNum 40) (Lovense.last_relative_speed Samples.lov) in
   let d := Lovense._safe_percent (PNum 50) (Lovense.last_depth_pos Samples.lov) in
   exists rest, sent (snd (Lovense.move Samples.lov (PNum 40) (PNum 50) PNone Samples.fresh))
     = sent Samples.fresh ++ PostV2 [LVibrate (Lovense.level s); LThrust 10 (py_round d)] :: rest).
Proof.
  destruct C1_partial_move_handy_noop_lovense_defaults as [H1 [H2 H3]].
  split; [|split].
  - apply H1; reflexivity.
  - exact (H2 Samples.lov PNone (PNum 50) (PNum 50) Samples.fresh eq_refl eq_refl).
  - exact (H3 Samples.lov (PNum 40) (PNum 50) Samples.fresh eq_refl eq_refl).
Defined.

(** C1 counterexample: the configured Lovense adapter, given a move with no
    depth, sends a request and changes its recorded speed. *)
Lemma C1_lovense_partial_move_counterexample :
  let r := Lovense.move Samples.lov (PNum 40) PNone (PNum 50) Samples.fresh in
  ~ (sent (snd r) = [] /\ fst r = Samples.lov).
Proof. vm_compute. intros [H _]. discriminate H. Qed.

(** C3 (code defect). With the controller's default depth bounds [0..100],
    [move(50, 0, 0)] computes the window [(100, 100)]: the [+2] widening is
    undone by the clamp to [100], and the adapter sends [slide] with
    [min = max = 100]. *)
Theorem C3_slide_window_collapses_at_top :
  Handy.slide_window Samples.h_default (PNum 0) (PNum 0) = (100, 100) /\
  In (Put "slide" (BSlide 100 100))
     (sent (snd (Handy.move Samples.h_default (PNum 50) (PNum 0) (PNum 0) Samples.fresh))).
Proof.
  split.
  - vm_compute. reflexivity.
  - vm_compute. right. right. left. reflexivity.
Qed.

(** C6 (as the code does it). [_send_command] swallows every
    [RequestException] and reports nothing, so a Handy move issues the same
    requests and leaves the controller in the same state whatever the
    network outcomes: a move whose requests all fail records the commanded
    speed and depth exactly as a successful one does. *)
Theorem C6_handy_state_ignores_network_failures :
  forall h sp dp rng snt outs1 outs2,
    fst (Handy.move h sp dp rng (mkio snt outs1))
      = fst (Handy.move h sp dp rng (mkio snt outs2)) /\
    sent (snd (Handy.move h sp dp rng (mkio snt outs1)))
      = sent (snd (Handy.move h sp dp rng (mkio snt outs2))).
Proof.
  intros h sp dp rng snt outs1 outs2.
  unfold Handy.move, Handy._send_command, bind, transmit, ret.
  destruct (Handy.key_set h); cbn; [|split; reflexivity].
  destruct (negb (py_is_none sp) && py_eq_zero sp); cbn.
  - destruct outs1, outs2; split; reflexivity.
  - destruct (py_is_none sp || py_is_none dp || py_is_none rng); cbn; [split; reflexivity|].
    destruct (Handy.slide_window h dp rng) as [smin smax]; cbn.
    io_cases; split; reflexivity.
Qed.

(** C6 counterexample: with every request failing, [move(50, 50, 100)] on
    the spec's calibration example still changes the controller's state. *)
Lemma C6_failed_move_changes_state :
  fst (Handy.move Samples.h_example (PNum 50) (PNum 50) (PNum 100) Samples.all_fail)
    <> Samples.h_example.
Proof. vm_compute. intro H. discriminate H. Qed.

Lemma py_round_nearest (q : Q) : (Qabs (inject_Z (py_round q) - q) <= 1 # 2)%Q.
Proof.
  unfold py_round.
  pose proof (Qfloor_le q) as Hle. pose proof (Qlt_floor q) as Hlt.
  set (f := Qfloor q) in *. clearbody f.
  apply Qabs_Qle_condition.
  destruct (Qcompare_spec (q - inject_Z f) (1 # 2)) as [Hc|Hc|Hc];
    [destruct (Z.even f)| |];
    rewrite ?inject_Z_plus in *; change (inject_Z 1) with 1%Q in *;
    set (x := inject_Z f) in *; clearbody x; split; lra.
Qed.

Lemma handy_safe_percent_range (p : pyval) :
  (0 <= Handy._safe_percent p <= 100)%Q.
Proof.
  unfold Handy._safe_percent, py_max, py_min.
  destruct (py_float p) as [q|]; [|split; discriminate].
  destruct (Qle_bool 100 q) eqn:E1;
    [apply Qle_bool_iff in E1 | apply Bool.not_true_iff_false in E1;
                                rewrite Qle_bool_iff in E1; apply Qnot_le_lt in E1];
    match goal with |- context [Qle_bool ?a ?b] => destruct (Qle_bool a b) eqn:E2 end;
    try (apply Qle_bool_iff in E2); try (apply Bool.not_true_iff_false in E2;
                                         rewrite Qle_bool_iff in E2; apply Qnot_le_lt in E2);
    split; lra.
Qed.

Lemma py_max_ge_l (a b : Q) : (a <= py_max a b)%Q.
Proof.
  unfold py_max. destruct (Qle_bool b a) eqn:E; [apply Qle_refl|].
  apply Bool.not_true_iff_false in E. rewrite Qle_bool_iff in E.
  apply Qlt_le_weak, Qnot_le_lt, E.
Qed.

Lemma py_min_le_l (a b : Q) : (py_min a b <= a)%Q.
Proof.
  unfold py_min. destruct (Qle_bool a b) eqn:E; [apply Qle_refl|].
  apply Bool.not_true_iff_false in E. rewrite Qle_bool_iff in E.
  apply Qlt_le_weak, Qnot_le_lt, E.
Qed.

(** C7 (as the code does it). With speed [20..80] and depth [10..90],
    [move(50, 50, 100)] sends velocity [50] and the slide window [10..90],
    the full calibrated range. In general the speed is the linear
    interpolation [min + (max - min) * pct / 100] of the clamped percentage,
    rounded to the nearest integer (ties to even) before it is sent; the
    depth zone is the symmetric window of width
    [(max_depth - min_depth) * range / 100] around the interpolated centre,
    then clamped to the calibrated bounds. *)
Theorem C7_calibration_mapping :
  (Handy.final_physical_speed Samples.h_example (PNum 50) = 50 /\
   (let (a, b) := Handy.clamped_zone Samples.h_example (PNum 50) (PNum 100) in
    a == 10 /\ b == 90)%Q /\
   Handy.slide_window Samples.h_example (PNum 50) (PNum 100) = (10, 90) /\
   sent (snd (Handy.move Samples.h_example (PNum 50) (PNum 50) (PNum 100) Samples.fresh))
     = [Put "mode" (BMode 0); Put "hamp/start" BEmpty;
        Put "slide" (BSlide 10 90); Put "hamp/velocity" (BVelocity 50)]) /\
  (forall h sp,
     (Handy.raw_speed h sp == Handy.min_user_speed h +
        (Handy.max_user_speed h - Handy.min_user_speed h) * (Handy._safe_percent sp / 100))%Q /\
     Handy.final_physical_speed h sp = py_round (Handy.raw_speed h sp) /\
     (Qabs (inject_Z (Handy.final_physical_speed h sp) - Handy.raw_speed h sp) <= 1 # 2)%Q /\
     (0 <= Handy._safe_percent sp <= 100)%Q) /\
  (forall h dp rng,
     let center := (Handy.min_handy_depth h + (Handy.max_handy_depth h - Handy.min_handy_depth h)
                      * (Handy._safe_percent dp / 100))%Q in
     (let (a, b) := Handy.zone h dp rng in
      b - a == (Handy.max_handy_depth h - Handy.min_handy_depth h) * (Handy._safe_percent rng / 100)
      /\ (a + b) / 2 == center)%Q /\
     (let (a, b) := Handy.clamped_zone h dp rng in
      Handy.min_handy_depth h <= a /\ b <= Handy.max_handy_depth h)%Q).
Proof.
  split; [|split].
  - vm_compute. repeat split; reflexivity.
  - intros h sp. split; [reflexivity|]. split; [reflexivity|]. split.
    + apply py_round_nearest.
    + apply handy_safe_percent_range.
  - intros h dp rng center. split.
    + unfold Handy.zone, center. cbv zeta. split; field.
    + unfold Handy.clamped_zone. destruct (Handy.zone h dp rng) as [a b].
      split; [apply py_max_ge_l | apply py_min_le_l].
Qed.

(** C7 counterexample: with speed bounds [20..85], [speed_pct = 50]
    interpolates to [52.5] but the physical speed computed and sent is the
    rounded [52]. *)
Lemma C7_speed_is_rounded_counterexample :
  Handy.final_physical_speed Samples.h_odd (PNum 50) = 52 /\
  ~ (inject_Z (Handy.final_physical_speed Samples.h_odd (PNum 50))
       == Handy.min_user_speed Samples.h_odd +
          (Handy.max_user_speed Samples.h_odd - Handy.min_user_speed Samples.h_odd)
          * (50 / 100))%Q.
Proof. split; [vm_compute; reflexivity|]. vm_compute. intro H. discriminate H. Qed.

Lemma count_app (p : Supervisor.sup_event -> bool) (l1 l2 : list Supervisor.sup_event) :
  Supervisor.count p (l1 ++ l2) = (Supervisor.count p l1 + Supervisor.count p l2)%nat.
Proof.
  induction l1 as [|e l1 IH]; cbn; [reflexivity|].
  destruct (p e); rewrite IH; reflexivity.
Qed.

Lemma count_loop_events (l : list loop_event) :
  Supervisor.count Supervisor.is_actuator_stop (map Supervisor.SLoop l) = O /\
  Supervisor.count Supervisor.is_on_stop (map Supervisor.SLoop l) = O.
Proof. induction l as [|e l IH]; cbn; [split; reflexivity | exact IH]. Qed.

(** C2. Whatever way the mode function ends (returning after completion or
    cancellation, raising an [Exception], or raising a [BaseException]),
    [run] with an actuator, an [on_stop] callback and a message callback
    ends with the actuator's [stop()], then [on_stop()], then the hand-back
    message, and calls [stop()] and [on_stop()] exactly once. *)
Theorem C2_teardown_once_in_order :
  forall w initial body how,
    Supervisor.w_handy w = true ->
    Supervisor.w_on_stop w = true ->
    Supervisor.w_send_message w = true ->
    let evs := fst (Supervisor.run w initial body how) in
    (exists pre, evs = pre ++ [Supervisor.SActuatorStop; Supervisor.SOnStop;
                               Supervisor.SSend Supervisor.handback]) /\
    Supervisor.count Supervisor.is_actuator_stop evs = 1%nat /\
    Supervisor.count Supervisor.is_on_stop evs = 1%nat.
Proof.
  intros w initial body how Hh Ho Hs evs.
  subst evs. unfold Supervisor.run, Supervisor.teardown. rewrite Hh, Ho, Hs. cbn [fst].
  destruct (count_loop_events body) as [C1 C2].
  split; [|split].
  - eexists. rewrite app_assoc. reflexivity.
  - rewrite !count_app, C1. reflexivity.
  - rewrite !count_app, C2. reflexivity.
Qed.

(** C2 witness: the wiring of [start_background_mode], a mode function that
    crashed with an [Exception] after one Bridge call. *)
Lemma C2_teardown_witness :
  let evs := fst (Supervisor.run Supervisor.app_wiring "Let's begin."
                    [LBridgeCall "prompt"] Supervisor.RaisedException) in
  (exists pre, evs = pre ++ [Supervisor.SActuatorStop; Supervisor.SOnStop;
                             Supervisor.SSend Supervisor.handback]) /\
  Supervisor.count Supervisor.is_actuator_stop evs = 1%nat /\
  Supervisor.count Supervisor.is_on_stop evs = 1%nat.
Proof. apply C2_teardown_once_in_order; reflexivity. Defined.

Lemma rfind_char_ge (c : Ascii.ascii) (s : string) : (-1 <= rfind_char c s)%Z.
Proof.
  induction s as [|a r IH]; cbn; [lia|].
  destruct (Z.eqb_spec (rfind_char c r) (-1)); [destruct (Ascii.eqb a c)|]; lia.
Qed.




Lemma dispatch_counts (r : response) (t : Q) :
  signal_clears (dispatch r t) = O /\ bridge_calls (dispatch r t) = O.
Proof.
  unfold dispatch.
  destruct (r_chat r) as [c|]; [destruct (String.eqb c "")|];
    destruct (r_move r); split; reflexivity.
Qed.

Ltac next_iteration :=
  let Hs := fresh "Hs" in
  intros Hs; unfold Edging.iteration; cbn; rewrite Hs;
  match goal with |- context [has_move ?r] => destruct (has_move r) end; reflexivity.

(** C4 (as the code does it). A raised edge signal is consumed by the next
    iteration: it clears the signal once, increments [edge_count] once and
    runs with phase [PULL_BACK]. If that iteration's Bridge reply has a
    move, the phase becomes [RECOVERY], and the following iteration runs
    with [RECOVERY] unless a new signal forces [PULL_BACK] again; if the
    reply has no move, the phase is not advanced and the following
    unsignalled iteration runs with [BUILD_UP]. Without a signal, an
    iteration whose reply has a move sets the next phase to
    [random.choice] over the four normal phases (a distinct phase per index,
    whatever the current phase); one without a move leaves it unchanged. *)
Theorem C4_edge_signal_forcing :
  (forall st e1 e2,
     (Edging.signal st || ie_signal e1) = true ->
     let '(st1, ph1, ev1) := Edging.iteration st e1 in
     ph1 = Edging.PULL_BACK /\
     Edging.edge_count st1 = S (Edging.edge_count st) /\
     signal_clears ev1 = 1%nat /\
     Edging.signal st1 = false /\
     (has_move (ie_response e1) = true ->
        Edging.current_state st1 = Edging.RECOVERY /\
        (ie_signal e2 = false -> snd (fst (Edging.iteration st1 e2)) = Edging.RECOVERY)) /\
     (has_move (ie_response e1) = false ->
        ie_signal e2 = false -> snd (fst (Edging.iteration st1 e2)) = Edging.BUILD_UP) /\
     (ie_signal e2 = true -> snd (fst (Edging.iteration st1 e2)) = Edging.PULL_BACK)) /\
  (forall st e,
     (Edging.signal st || ie_signal e) = false ->
     let '(st1, _, ev1) := Edging.iteration st e in
     signal_clears ev1 = O /\
     Edging.edge_count st1 = Edging.edge_count st /\
     (has_move (ie_response e) = true ->
        Edging.current_state st1 = Edging.py_choice Edging.states (ie_pick e)) /\
     (has_move (ie_response e) = false ->
        Edging.current_state st1 =
          match Edging.moods (Edging.current_state st) with
          | Some _ => Edging.current_state st
          | None => Edging.BUILD_UP
          end)) /\
  NoDup Edging.states /\ List.length Edging.states = 4%nat /\
  ~ In Edging.PULL_BACK Edging.states.
Proof.
  split; [|split].
  - intros st e1 e2 H. unfold Edging.iteration at 1. rewrite H.
    destruct (has_move (ie_response e1)) eqn:Hm; cbn -[Edging.iteration dispatch];
      (split; [|split; [|split; [|split; [|split; [|split]]]]]);
      first [ reflexivity
            | rewrite (proj1 (dispatch_counts _ _)); reflexivity
            | let Hc := fresh in intros Hc; discriminate Hc
            | intros _; split; [reflexivity | next_iteration]
            | next_iteration
            | intros _; next_iteration ].
  - intros [n cs sg] e H. unfold Edging.iteration. cbn in H |- *. rewrite H.
    destruct cs; destruct (has_move (ie_response e)) eqn:Hm; cbn -[dispatch];
      (split; [|split; [|split]]);
      first [ reflexivity
            | rewrite (proj1 (dispatch_counts _ _)); reflexivity
            | let Hc := fresh in intros Hc; discriminate Hc
            | intros _; reflexivity ].
  - split; [|split].
    + repeat constructor; cbn; intuition discriminate.
    + reflexivity.
    + cbn. intuition discriminate.
Qed.

(** C4 witness: a signal raised before the first iteration, whose reply
    has a move. *)
Lemma C4_edge_signal_witness :
  let '(st1, ph1, ev1) := Edging.iteration Edging.init (Samples.env false true Samples.a_move) in
  ph1 = Edging.PULL_BACK /\
  Edging.edge_count st1 = S (Edging.edge_count Edging.init) /\
  signal_clears ev1 = 1%nat /\
  Edging.signal st1 = false /\
  (has_move (ie_response (Samples.env false true Samples.a_move)) = true ->
     Edging.current_state st1 = Edging.RECOVERY /\
     (ie_signal (Samples.env false false Samples.a_move) = false ->
      snd (fst (Edging.iteration st1 (Samples.env false false Samples.a_move))) = Edging.RECOVERY)) /\
  (has_move (ie_response (Samples.env false true Samples.a_move)) = false ->
     ie_signal (Samples.env false false Samples.a_move) = false ->
     snd (fst (Edging.iteration st1 (Samples.env false false Samples.a_move))) = Edging.BUILD_UP) /\
  (ie_signal (Samples.env false false Samples.a_move) = true ->
     snd (fst (Edging.iteration st1 (Samples.env false false Samples.a_move))) = Edging.PULL_BACK).
Proof.
  exact (proj1 C4_edge_signal_forcing Edging.init (Samples.env false true Samples.a_move)
           (Samples.env false false Samples.a_move) eq_refl).
Defined.

(** C4 counterexample: the signal is consumed by an iteration whose Bridge
    reply has no move; the next, unsignalled iteration runs with
    [BUILD_UP], not [RECOVERY]. *)
Lemma C4_no_move_loses_recovery :
  let st1 := fst (fst (Edging.iteration Edging.init (Samples.env false true Samples.no_move))) in
  snd (fst (Edging.iteration st1 (Samples.env false false Samples.a_move))) <> Edging.RECOVERY.
Proof. vm_compute. intro H. discriminate H. Qed.

(** C8 (code defect). [edging_mode_logic] leaves its [while] loop only when
    the stop event is set, so its closing block, guarded by
    [if not stop_event.is_set()], never runs: a returning edging session
    emits only its iterations' events. A session with one signalled
    iteration, then cancelled, emits neither the closing line nor the
    ["Afterglow"] mood. *)
Theorem C8_edging_closing_line_unreachable :
  (forall envs,
     Edging.edging_mode_logic envs =
       (let '(evs, _, exited) := Edging.edging_loop Edging.init envs in
        if exited then Some evs else None)) /\
  match Edging.edging_mode_logic [Samples.env false true Samples.a_move;
                                  Samples.env true false Samples.no_move] with
  | Some evs => ~ In (LMood "Afterglow") evs /\
                ~ In (LSend "You did so well, holding it in for 1 edges...") evs
  | None => False
  end.
Proof.
  split.
  - intros envs. unfold Edging.edging_mode_logic.
    destruct (Edging.edging_loop Edging.init envs) as [[evs st] []];
      cbn; [rewrite app_nil_r|]; reflexivity.
  - vm_compute. split; intuition discriminate.
Qed.

Lemma bridge_calls_app (l1 l2 : list loop_event) :
  bridge_calls (l1 ++ l2) = (bridge_calls l1 + bridge_calls l2)%nat.
Proof.
  induction l1 as [|e l1 IH]; cbn; [reflexivity|].
  destruct e; cbn; rewrite ?IH; reflexivity.
Qed.

Lemma milking_iteration_one_call (e : iter_env) :
  bridge_calls (Milking.iteration e) = 1%nat.
Proof.
  unfold Milking.iteration. cbn.
  destruct (has_move (ie_response e)); [|reflexivity].
  rewrite (proj2 (dispatch_counts _ _)). reflexivity.
Qed.

Lemma milking_iters_no_stop (k i : nat) (env : nat -> iter_env) :
  (forall j, ie_stop (env j) = false) ->
  snd (Milking.iters k i env) = false /\
  bridge_calls (fst (Milking.iters k i env)) = k.
Proof.
  intros Hs. revert i.
  induction k as [|k IH]; intros i; cbn -[Milking.iteration]; [split; reflexivity|].
  rewrite Hs. destruct (Milking.iters k (S i) env) as [evs broke] eqn:E.
  specialize (IH (S i)). rewrite E in IH. cbn -[Milking.iteration] in IH |- *.
  destruct IH as [-> IH].
  split; [reflexivity|].
  rewrite bridge_calls_app, milking_iteration_one_call, IH. reflexivity.
Qed.
















(** C10. On the relay [deque(maxlen=5)] holding at most 5 messages (empty
    when a session starts), appending six messages and then popping once
    per iteration yields the last five in push order, the first being
    discarded, and then [None]. *)
Theorem C10_relay_queue_drop_oldest :
  forall (q : list string) (m1 m2 m3 m4 m5 m6 : string),
    (List.length q <= 5)%nat ->
    Relay.pop_n 6 (Relay.push_all q [m1; m2; m3; m4; m5; m6])
      = [Some m2; Some m3; Some m4; Some m5; Some m6; None].
Proof.
  intros q m1 m2 m3 m4 m5 m6 H.
  destruct q as [|a [|b [|c [|d [|e [|f q]]]]]]; cbn in H |- *; try lia; reflexivity.
Qed.

(** C10 witness: the queue as [start_background_mode] leaves it. *)
Lemma C10_relay_queue_witness :
  Relay.pop_n 6 (Relay.push_all [] ["a"; "b"; "c"; "d"; "e"; "f"])
    = [Some "b"; Some "c"; Some "d"; Some "e"; Some "f"; None].
Proof. apply C10_relay_queue_drop_oldest. cbn. lia. Defined.

(* ------------------------------------------------------------------ *)
(** ** Further properties of the adapters, the loops and the app *)

Lemma py_round_mono (q1 q2 : Q) : (q1 <= q2)%Q -> (py_round q1 <= py_round q2)%Z.
Proof.
  intros H. unfold py_round.
  pose proof (Qfloor_resp_le _ _ H) as Hf.
  pose proof (Qfloor_le q1) as A1. pose proof (Qlt_floor q1) as B1.
  pose proof (Qfloor_le q2) as A2. pose proof (Qlt_floor q2) as B2.
  set (f1 := Qfloor q1) in *. set (f2 := Qfloor q2) in *. clearbody f1 f2.
  destruct (Z_le_lt_eq_dec _ _ Hf) as [Hlt|Heq].
  - destruct (Qcompare (q1 - inject_Z f1) (1 # 2)); [destruct (Z.even f1)| |];
    destruct (Qcompare (q2 - inject_Z f2) (1 # 2)); try destruct (Z.even f2); lia.
  - subst f2. rewrite ?inject_Z_plus in *.
    destruct (Qcompare_spec (q1 - inject_Z f1) (1 # 2)) as [C1|C1|C1];
    destruct (Qcompare_spec (q2 - inject_Z f1) (1 # 2)) as [C2|C2|C2];
    try destruct (Z.even f1); try lia;
    exfalso; set (x := inject_Z f1) in *; clearbody x; lra.
Qed.

Lemma py_round_compat (q1 q2 : Q) : (q1 == q2)%Q -> py_round q1 = py_round q2.
Proof.
  intros H. apply Z.le_antisymm; apply py_round_mono; rewrite H; apply Qle_refl.
Qed.

Lemma py_round_inject_Z (z : Z) : py_round (inject_Z z) = z.
Proof.
  unfold py_round. rewrite Qfloor_Z.
  destruct (Qcompare_spec (inject_Z z - inject_Z z) (1 # 2)) as [C|C|C];
    [exfalso; set (x := inject_Z z) in *; clearbody x; lra | reflexivity |
     exfalso; set (x := inject_Z z) in *; clearbody x; lra].
Qed.

Lemma py_round_bounds (a b : Z) (q : Q) :
  (inject_Z a <= q <= inject_Z b)%Q -> (a <= py_round q <= b)%Z.
Proof.
  intros [H1 H2]. split.
  - rewrite <- (py_round_inject_Z a) at 1. apply py_round_mono, H1.
  - rewrite <- (py_round_inject_Z b). apply py_round_mono, H2.
Qed.

Lemma py_max_cases (a b : Q) :
  (py_max a b = a /\ b <= a \/ py_max a b = b /\ a < b)%Q.
Proof.
  unfold py_max. destruct (Qle_bool b a) eqn:E.
  - left. split; [reflexivity | apply Qle_bool_iff, E].
  - right. split; [reflexivity|].
    apply Bool.not_true_iff_false in E. rewrite Qle_bool_iff in E. apply Qnot_le_lt, E.
Qed.

Lemma py_min_cases (a b : Q) :
  (py_min a b = a /\ a <= b \/ py_min a b = b /\ b < a)%Q.
Proof.
  unfold py_min. destruct (Qle_bool a b) eqn:E.
  - left. split; [reflexivity | apply Qle_bool_iff, E].
  - right. split; [reflexivity|].
    apply Bool.not_true_iff_false in E. rewrite Qle_bool_iff in E. apply Qnot_le_lt, E.
Qed.

Lemma lovense_safe_percent_range (v : pyval) (d : Q) :
  (0 <= d <= 100)%Q -> (0 <= Lovense._safe_percent v d <= 100)%Q.
Proof.
  intros Hd. unfold Lovense._safe_percent.
  destruct v; cbn [py_float]; try exact Hd;
  destruct (py_min_cases 100 q) as [[-> M]|[-> M]];
  match goal with |- context [py_max 0 ?x] => destruct (py_max_cases 0 x) as [[-> N]|[-> N]] end;
  split; lra.
Qed.

Lemma scaled_between (lo hi t : Q) :
  (lo <= hi)%Q -> (0 <= t <= 100)%Q ->
  (lo <= lo + (hi - lo) * (t / 100) <= hi)%Q.
Proof.
  intros H [T1 T2].
  assert (0 <= (hi - lo) * (t / 100))%Q.
  { apply Qmult_le_0_compat; [lra|]. apply Qle_shift_div_l; lra. }
  assert ((hi - lo) * (t / 100) <= (hi - lo) * 1)%Q.
  { apply Qmult_le_compat_nonneg; split; try lra;
      [apply Qle_shift_div_l | apply Qle_shift_div_r]; lra. }
  lra.
Qed.

Lemma half_span_nonneg (w t : Q) :
  (0 <= w)%Q -> (0 <= t <= 100)%Q -> (0 <= w * (t / 100) / 2)%Q.
Proof.
  intros H [T1 T2]. apply Qle_shift_div_l; [lra|].
  setoid_replace (0 * 2)%Q with 0%Q by ring.
  apply Qmult_le_0_compat; [lra|]. apply Qle_shift_div_l; lra.
Qed.

Lemma clamped_zone_order (h : Handy.HandyController) (dp rng : pyval) :
  (Handy.min_handy_depth h <= Handy.max_handy_depth h)%Q ->
  let (a, b) := Handy.clamped_zone h dp rng in
  (Handy.min_handy_depth h <= a /\ a <= b /\ b <= Handy.max_handy_depth h)%Q.
Proof.
  intros H. unfold Handy.clamped_zone, Handy.zone.
  pose proof (scaled_between _ _ _ H (handy_safe_percent_range dp)) as [C1 C2].
  assert (0 <= Handy.max_handy_depth h - Handy.min_handy_depth h)%Q as W by lra.
  pose proof (half_span_nonneg _ _ W (handy_safe_percent_range rng)) as S.
  set (c := (Handy.min_handy_depth h + _ * _)%Q) in *.
  set (s := (_ * _ / 2)%Q) in *.
  destruct (py_max_cases (Handy.min_handy_depth h) (c - s)) as [[-> M]|[-> M]];
  destruct (py_min_cases (Handy.max_handy_depth h) (c + s)) as [[-> N]|[-> N]];
  repeat split; lra.
Qed.

(** X1. Without a key, the Handy adapter does nothing: [move] and [stop]
    issue no request and leave the controller as it was, [nudge] issues no
    [hdsp/xava] request (it still returns its target), and
    [get_position_mm] returns [None]. *)
Theorem handy_without_key_is_inert :
  forall h, Handy.key_set h = false ->
    (forall sp dp rng w, Handy.move h sp dp rng w = (h, w)) /\
    (forall w, Handy.stop h w = (h, w)) /\
    (forall dir lo hi pos, snd (HandyCal.nudge h dir lo hi pos) = None) /\
    (forall fos o, HandyCal.get_position_mm fos h o = HandyCal.PosNone).
Proof.
  intros h Hk. unfold Handy.stop, Handy.move, HandyCal.nudge, HandyCal.get_position_mm.
  rewrite Hk. cbn. repeat split; reflexivity.
Qed.

(** Witness: a controller built with the empty key. *)
Lemma handy_without_key_is_inert_witness :
  Handy.key_set (Handy.init "") = false /\
  Handy.move (Handy.init "") (PNum 50) (PNum 50) (PNum 50) Samples.fresh
    = (Handy.init "", Samples.fresh).
Proof.
  split; [reflexivity|].
  exact (proj1 (handy_without_key_is_inert (Handy.init "") eq_refl)
           (PNum 50) (PNum 50) (PNum 50) Samples.fresh).
Defined.



(** X3. The Handy adapter keeps its recorded state in range: the initial
    state has [last_relative_speed] and [last_depth_pos] in [0..100], and
    every [move] (hence every [stop]) keeps them there, whatever its
    arguments and whatever the network does. *)
Theorem handy_move_keeps_state_in_range :
  (forall key, handy_inv (Handy.init key)) /\
  (forall h sp dp rng w, handy_inv h -> handy_inv (fst (Handy.move h sp dp rng w))).
Proof.
  split.
  - intros key. unfold handy_inv. cbn. split; [split; discriminate | lia].
  - intros h sp dp rng [snt outs] [H1 H2].
    unfold Handy.move, Handy._send_command, bind, transmit, ret.
    destruct (Handy.key_set h); cbn [negb]; [|split; assumption].
    destruct (negb (py_is_none sp) && py_eq_zero sp).
    + destruct outs; cbn; unfold handy_inv; cbn; (split; [split; discriminate | exact H2]).
    + destruct (py_is_none sp || py_is_none dp || py_is_none rng); [split; assumption|].
      destruct (Handy.slide_window h dp rng) as [smin smax]. cbn.
      pose proof (handy_safe_percent_range sp) as Rs.
      pose proof (py_round_bounds 0 100 _ (handy_safe_percent_range dp)) as Rd.
      io_cases; unfold handy_inv; cbn; split; assumption.
Qed.

(** Witness: one move from the initial state. *)
Lemma handy_move_keeps_state_in_range_witness :
  handy_inv (fst (Handy.move (Handy.init "key") (PNum 150) (PNum (-3)) (PNum 50) Samples.fresh)).
Proof.
  apply (proj2 handy_move_keeps_state_in_range).
  apply (proj1 handy_move_keeps_state_in_range).
Defined.

(** X4. With depth bounds [0 <= min_depth <= max_depth <= 100], the slide
    window a Handy move sends satisfies [0 <= slide_min <= slide_max <= 100],
    and the two are equal only when both are [100].
    [set_depth_limits_route] orders the two depths it receives, so two depths
    in [0..100], given in either order, establish these bounds. *)
Theorem handy_slide_window_well_formed :
  (forall h dp rng,
     (0 <= Handy.min_handy_depth h)%Q ->
     (Handy.min_handy_depth h <= Handy.max_handy_depth h)%Q ->
     (Handy.max_handy_depth h <= 100)%Q ->
     let (smin, smax) := Handy.slide_window h dp rng in
     (0 <= smin <= smax /\ smax <= 100 /\ (smin < smax \/ smin = 100))%Z) /\
  (forall h s1 s2 d1 d2,
     (0 <= d1 <= 100)%Z -> (0 <= d2 <= 100)%Z ->
     let h' := App.set_depth_limits h s1 s2 d1 d2 in
     (0 <= Handy.min_handy_depth h')%Q /\
     (Handy.min_handy_depth h' <= Handy.max_handy_depth h')%Q /\
     (Handy.max_handy_depth h' <= 100)%Q).
Proof.
  split.
  - intros h dp rng H0 H1 H2. unfold Handy.slide_window.
    pose proof (clamped_zone_order h dp rng H1) as Z.
    destruct (Handy.clamped_zone h dp rng) as [a b].
    destruct Z as [Za [Zab Zb]].
    assert (0 <= py_round (100 - b) <= 100)%Z as Rb
      by (apply py_round_bounds;
          change (inject_Z 0) with 0%Q; change (inject_Z 100) with 100%Q; split; lra).
    assert (0 <= py_round (100 - a) <= 100)%Z as Ra
      by (apply py_round_bounds;
          change (inject_Z 0) with 0%Q; change (inject_Z 100) with 100%Q; split; lra).
    assert (py_round (100 - b) <= py_round (100 - a))%Z as M
      by (apply py_round_mono; lra).
    cbv zeta.
    destruct (Z.geb_spec (py_round (100 - b)) (py_round (100 - a))); lia.
  - intros h s1 s2 d1 d2 Hd1 Hd2. cbn.
    rewrite <- !Zle_Qle. change 0%Q with (inject_Z 0). change 100%Q with (inject_Z 100).
    rewrite <- !Zle_Qle. lia.
Qed.

(** Witness: the controller's default bounds [0..100], and the route given
    [90] then [10]. *)
Lemma handy_slide_window_well_formed_witness :
  (let (smin, smax) := Handy.slide_window Samples.h_default (PNum 0) (PNum 0) in
   (0 <= smin <= smax /\ smax <= 100 /\ (smin < smax \/ smin = 100))%Z) /\
  (let h' := App.set_depth_limits Samples.h_default 10 80 90 10 in
   (0 <= Handy.min_handy_depth h')%Q /\
   (Handy.min_handy_depth h' <= Handy.max_handy_depth h')%Q /\
   (Handy.max_handy_depth h' <= 100)%Q).
Proof.
  split.
  - apply (proj1 handy_slide_window_well_formed); vm_compute; discriminate.
  - apply (proj2 handy_slide_window_well_formed); lia.
Defined.

(** X5. [nudge] moves the target by one 2 mm jog step at most and never out
    of the window [[FULL_TRAVEL_MM * min_pct / 100, FULL_TRAVEL_MM * max_pct / 100]]
    it is given: ["up"] gives [min(pos + 2, max_mm)], ["down"] gives
    [max(pos - 2, min_mm)], any other direction keeps [pos]; from a position
    inside the window the target stays inside it, within 2 mm of [pos].
    With a key it sends [hdsp/xava] with that target, velocity [20] and
    [stopOnTarget]. *)
Theorem handy_nudge_bounded :
  forall h dir lo hi pos,
    let min_mm := (HandyCal.FULL_TRAVEL_MM * lo / 100)%Q in
    let max_mm := (HandyCal.FULL_TRAVEL_MM * hi / 100)%Q in
    let t := fst (HandyCal.nudge h dir lo hi pos) in
    (dir = "up" -> t = py_min (pos + 2) max_mm /\ (t <= max_mm /\ t <= pos + 2)%Q) /\
    (dir = "down" -> t = py_max (pos - 2) min_mm /\ (min_mm <= t /\ pos - 2 <= t)%Q) /\
    (dir <> "up" -> dir <> "down" -> t = pos) /\
    ((min_mm <= pos <= max_mm)%Q -> (min_mm <= t <= max_mm)%Q /\ (Qabs (t - pos) <= 2)%Q) /\
    snd (HandyCal.nudge h dir lo hi pos) =
      (if Handy.key_set h then Some ("hdsp/xava", HandyCal.mkXava t 20 true) else None).
Proof.
  intros h dir lo hi pos min_mm max_mm t.
  assert (Up : dir = "up" -> t = py_min (pos + 2) max_mm).
  { intros ->. reflexivity. }
  assert (Down : dir = "down" -> t = py_max (pos - 2) min_mm).
  { intros ->. reflexivity. }
  assert (Other : dir <> "up" -> dir <> "down" -> t = pos).
  { intros N1 N2. subst t. unfold HandyCal.nudge. cbn [fst].
    apply String.eqb_neq in N1, N2. rewrite N1, N2. reflexivity. }
  split; [|split; [|split; [|split]]].
  - intros E. rewrite (Up E).
    destruct (py_min_cases (pos + 2) max_mm) as [[-> M]|[-> M]]; repeat split; lra.
  - intros E. rewrite (Down E).
    destruct (py_max_cases (pos - 2) min_mm) as [[-> M]|[-> M]]; repeat split; lra.
  - exact Other.
  - intros [P1 P2].
    destruct (String.eqb_spec dir "up") as [E|N1].
    { rewrite (Up E).
      destruct (py_min_cases (pos + 2) max_mm) as [[-> M]|[-> M]];
        (split; [split; lra|]); apply Qabs_Qle_condition; split; lra. }
    destruct (String.eqb_spec dir "down") as [E|N2].
    { rewrite (Down E).
      destruct (py_max_cases (pos - 2) min_mm) as [[-> M]|[-> M]];
        (split; [split; lra|]); apply Qabs_Qle_condition; split; lra. }
    rewrite (Other N1 N2). split; [split; lra|].
    apply Qabs_Qle_condition; split; lra.
  - reflexivity.
Qed.

(** Witness: a keyed controller, nudged up from 50 mm in the full window. *)
Lemma handy_nudge_bounded_witness :
  let t := fst (HandyCal.nudge Samples.h_default "up" 0 100 50) in
  (HandyCal.FULL_TRAVEL_MM * 0 / 100 <= 50 <= HandyCal.FULL_TRAVEL_MM * 100 / 100)%Q /\
  (HandyCal.FULL_TRAVEL_MM * 0 / 100 <= t <= HandyCal.FULL_TRAVEL_MM * 100 / 100)%Q /\
  (Qabs (t - 50) <= 2)%Q.
Proof.
  assert (H : (HandyCal.FULL_TRAVEL_MM * 0 / 100 <= 50 <= HandyCal.FULL_TRAVEL_MM * 100 / 100)%Q)
    by (split; vm_compute; intro E; discriminate E).
  split; [exact H|].
  exact (proj1 (proj2 (proj2 (proj2 (handy_nudge_bounded Samples.h_default "up" 0 100 50)))) H).
Defined.

(** X6. [mm_to_percent] inverts the percentage-to-millimetre conversion of
    [nudge] up to rounding: a position of [FULL_TRAVEL_MM * p / 100] mm reads
    back as [round(p)], and every position in [[0, FULL_TRAVEL_MM]] reads as
    a percentage in [[0, 100]]. The Lovense [mm_to_percent] always returns a
    value in [[0, 100]], and [0] for [None] or a value [float()] rejects. *)
Theorem mm_to_percent_round_trip :
  (forall p, HandyCal.mm_to_percent (HandyCal.FULL_TRAVEL_MM * p / 100) = py_round p) /\
  (forall v, (0 <= v <= HandyCal.FULL_TRAVEL_MM)%Q -> (0 <= HandyCal.mm_to_percent v <= 100)%Z) /\
  (forall v, (0 <= lovense_mm_to_percent v <= 100)%Z) /\
  lovense_mm_to_percent PNone = 0%Z /\ lovense_mm_to_percent PBad = 0%Z.
Proof.
  split; [|split; [|split]].
  - intros p. unfold HandyCal.mm_to_percent. apply py_round_compat.
    unfold HandyCal.FULL_TRAVEL_MM. field.
  - intros v [H1 H2]. unfold HandyCal.mm_to_percent. apply py_round_bounds.
    unfold HandyCal.FULL_TRAVEL_MM in *.
    change (inject_Z 0) with 0%Q; change (inject_Z 100) with 100%Q.
    split.
    + apply Qmult_le_0_compat; [apply Qle_shift_div_l|]; lra.
    + setoid_replace (v / 110 * 100)%Q with (v * (100 / 110))%Q by field.
      setoid_replace 100%Q with (110 * (100 / 110))%Q at 2 by field.
      apply Qmult_le_compat_r; [exact H2|]. apply Qle_shift_div_l; lra.
  - intros v. unfold lovense_mm_to_percent. apply py_round_bounds.
    apply lovense_safe_percent_range. split; discriminate.
  - split; reflexivity.
Qed.

(** Witness: the end of travel reads as 100 %. *)
Lemma mm_to_percent_round_trip_witness :
  (0 <= 110 <= HandyCal.FULL_TRAVEL_MM)%Q /\ (0 <= HandyCal.mm_to_percent 110 <= 100)%Z.
Proof.
  assert (H : (0 <= 110 <= HandyCal.FULL_TRAVEL_MM)%Q)
    by (unfold HandyCal.FULL_TRAVEL_MM; split; lra).
  split; [exact H|]. exact (proj1 (proj2 mm_to_percent_round_trip) 110%Q H).
Defined.

(** X7. With a key, [get_position_mm] returns [None] only when the request
    raises a [RequestException]. A JSON object without ["position"], such as
    an error reply, reads as position [0.0], and a reply that is not a JSON
    object makes it raise. *)
Theorem handy_get_position_cases :
  forall fos h, Handy.key_set h = true ->
    (forall o, HandyCal.get_position_mm fos h o = HandyCal.PosNone <->
               o = HandyCal.PosRequestException) /\
    (forall l, Bridge.assoc "position" l = None ->
       HandyCal.get_position_mm fos h (HandyCal.PosJson (Bridge.JObj l)) = HandyCal.PosValue 0) /\
    (forall data, (forall l, data <> Bridge.JObj l) ->
       HandyCal.get_position_mm fos h (HandyCal.PosJson data) = HandyCal.PosRaises).
Proof.
  intros fos h Hk. unfold HandyCal.get_position_mm. rewrite Hk. cbn [negb].
  split; [|split].
  - intros o. split; [|intros ->; reflexivity].
    destruct o as [|[| | | | |l]]; try discriminate; [reflexivity|].
    destruct (Bridge.assoc "position" l) as [[| | | s | |]|]; try discriminate.
    destruct (fos s); discriminate.
  - intros l Hl. rewrite Hl. reflexivity.
  - intros [| | | | |l] N; try reflexivity. exfalso. exact (N l eq_refl).
Qed.

(** Witness: an error reply without a position. *)
Lemma handy_get_position_cases_witness :
  Handy.key_set Samples.h_default = true /\
  Bridge.assoc "position" [("error", Bridge.JStr "not connected")] = None /\
  HandyCal.get_position_mm (fun _ => None) Samples.h_default
    (HandyCal.PosJson (Bridge.JObj [("error", Bridge.JStr "not connected")]))
  = HandyCal.PosValue 0.
Proof.
  split; [reflexivity|]. split; [reflexivity|].
  exact (proj1 (proj2 (handy_get_position_cases (fun _ => None) Samples.h_default eq_refl))
           [("error", Bridge.JStr "not connected")] eq_refl).
Defined.

(** X8. Lovense [stop()]: unconfigured, it does nothing. Configured, it
    posts the v2 [stop] command and, only when that does not answer 2xx
    (another status, or a [RequestException]), sends the legacy [Stop]; in
    both cases it zeroes the recorded speeds and keeps the depth. *)
Theorem lovense_stop_fallback :
  forall l w,
    (Lovense.is_configured l = false -> Lovense.stop l w = (l, w)) /\
    (Lovense.is_configured l = true ->
       sent (snd (Lovense.stop l w)) =
         sent w ++ PostV2 [LStop] ::
           (if is_2xx (hd (NetResponse 200) (net w)) then [] else [GetLegacy LegStop]) /\
       fst (Lovense.stop l w) = Lovense.set_speeds l 0 0 (Lovense.last_depth_pos l)).
Proof.
  intros l [snt nt]. split.
  - intros Hc. unfold Lovense.stop. rewrite Hc. reflexivity.
  - intros Hc. unfold Lovense.stop, Lovense._send_v2, Lovense._send_legacy.
    rewrite Hc. unfold bind, transmit, ret. cbn -[Lovense.set_speeds].
    io_cases; (split; [cbn; rewrite <- ?app_assoc; reflexivity | reflexivity]).
Qed.

(** Witness: the sample controller, its v2 request refused with a 404. *)
Lemma lovense_stop_fallback_witness :
  Lovense.is_configured Samples.lov = true /\
  sent (snd (Lovense.stop Samples.lov (mkio [] [NetResponse 404]))) =
    [PostV2 [LStop]; GetLegacy LegStop].
Proof.
  split; [reflexivity|].
  exact (proj1 (proj2 (lovense_stop_fallback Samples.lov (mkio [] [NetResponse 404])) eq_refl)).
Defined.



Lemma lovense_level_range (q : Q) : (0 <= Lovense.level q <= 20)%Z.
Proof. unfold Lovense.level. lia. Qed.

(** X10. The Lovense adapter keeps its recorded speeds and depth in
    [[0, 100]]: the initial state has them there, and every [move] and
    [stop] keeps them there, whatever the arguments and the network. From
    such a state, every command a [move] builds is within the device's
    ranges: vibrate and thrust levels in [[0, 20]], thrust positions in
    [[0, 100]]. *)
Theorem lovense_state_and_commands_in_range :
  (forall tok, lovense_inv (Lovense.init tok)) /\
  (forall l sp dp rng w, lovense_inv l ->
     lovense_inv (fst (Lovense.move l sp dp rng w)) /\ lovense_inv (fst (Lovense.stop l w))) /\
  (forall l sp dp rng, lovense_inv l -> Forall lov_cmd_ok (lovense_commands l sp dp rng)).
Proof.
  assert (Stop : forall l w, lovense_inv l -> lovense_inv (fst (Lovense.stop l w))).
  { intros l [snt nt] [H1 [H2 H3]]. unfold Lovense.stop, Lovense._send_v2, Lovense._send_legacy.
    destruct (Lovense.is_configured l); cbn [negb]; [|split; [|split]; assumption].
    unfold bind, transmit, ret.
    io_cases; unfold lovense_inv; cbn;
      (split; [split; discriminate | split; [exact H2 | split; discriminate]]). }
  split; [|split].
  - intros tok. unfold lovense_inv. cbn. split; [|split]; split; discriminate.
  - intros l sp dp rng w H. split; [|exact (Stop l w H)].
    destruct H as [H1 [H2 H3]].
    unfold Lovense.move.
    destruct (Lovense.is_configured l) eqn:Hc; cbn [negb]; [|split; [|split]; assumption].
    destruct (negb (py_is_none sp) && py_eq_zero sp); [exact (Stop l w (conj H1 (conj H2 H3)))|].
    destruct w as [snt nt].
    unfold Lovense._send_v2, Lovense._send_legacy. rewrite Hc.
    pose proof (lovense_safe_percent_range sp _ H1) as Rs.
    pose proof (lovense_safe_percent_range dp _ H2) as Rd.
    unfold bind, transmit, ret. cbn -[Lovense.set_speeds Lovense.level py_round Lovense._safe_percent].
    io_cases; unfold lovense_inv; cbn; (split; [exact Rs | split; [exact Rd | exact Rs]]).
  - intros l sp dp rng [H1 [H2 H3]]. unfold lovense_commands.
    pose proof (lovense_safe_percent_range dp _ H2) as Rd.
    constructor; [apply lovense_level_range|].
    destruct (negb _); constructor; [|constructor].
    split; [apply lovense_level_range|]. apply py_round_bounds, Rd.
Qed.

(** Witness: a move from the initial state. *)
Lemma lovense_state_and_commands_in_range_witness :
  lovense_inv (fst (Lovense.move Samples.lov (PNum 250) PNone (PNum 50) Samples.fresh)) /\
  Forall lov_cmd_ok (lovense_commands Samples.lov (PNum 250) PNone (PNum 50)).
Proof.
  pose proof (proj1 lovense_state_and_commands_in_range "token") as H.
  split.
  - exact (proj1 (proj1 (proj2 lovense_state_and_commands_in_range)
                   Samples.lov (PNum 250) PNone (PNum 50) Samples.fresh H)).
  - exact (proj2 (proj2 lovense_state_and_commands_in_range) Samples.lov (PNum 250) PNone (PNum 50) H).
Defined.

Lemma normalize_type_lovense (v : option string) :
  Device._normalize_type v = "lovense" <-> exists s, v = Some s /\ Device.lower s = "lovense".
Proof.
  destruct v as [s|]; cbn -[Device.lower].
  2: { split; [discriminate | intros [s [H _]]; discriminate H]. }
  destruct (String.eqb_spec s "") as [->|Ns].
  { split; [discriminate | intros [s' [H L]]; injection H as <-; discriminate L]. }
  destruct (String.eqb_spec (Device.lower s) "handy") as [Eh|Nh]; cbn [orb].
  { rewrite Eh. split; [discriminate|]. intros [s' [H L]]. injection H as <-.
    rewrite Eh in L. discriminate L. }
  destruct (String.eqb_spec (Device.lower s) "lovense") as [El|Nl]; cbn [orb].
  - split; [intros _; exists s; split; [reflexivity | exact El] | intros _; exact El].
  - split; [discriminate|]. intros [s' [H L]]. injection H as <-. contradiction.
Qed.

Lemma normalize_type_supported (v : option string) :
  Device._normalize_type v = "handy" \/ Device._normalize_type v = "lovense".
Proof.
  destruct v as [s|]; cbn -[Device.lower]; [|left; reflexivity].
  destruct (String.eqb s ""); [left; reflexivity|].
  destruct (String.eqb_spec (Device.lower s) "handy") as [Eh|Nh]; cbn [orb]; [left; exact Eh|].
  destruct (String.eqb_spec (Device.lower s) "lovense") as [El|Nl]; cbn [orb];
    [right; exact El | left; reflexivity].
Qed.

(** X11. [DeviceController._normalize_type] always yields a supported type:
    ["handy"] or ["lovense"]. It yields ["lovense"] exactly for a value whose
    lower-case form is ["lovense"] (so ["Lovense"] and ["LOVENSE"] too), and
    normalising its own result changes nothing. *)
Theorem device_normalize_type :
  forall v,
    (Device._normalize_type v = "handy" \/ Device._normalize_type v = "lovense") /\
    (Device._normalize_type v = "lovense" <-> exists s, v = Some s /\ Device.lower s = "lovense") /\
    Device._normalize_type (Some (Device._normalize_type v)) = Device._normalize_type v.
Proof.
  intros v. split; [apply normalize_type_supported|]. split; [apply normalize_type_lovense|].
  destruct (normalize_type_supported v) as [E|E]; rewrite E; reflexivity.
Qed.

Lemma appends_ret {A} (P : Request -> Prop) (a : A) : appends P (ret a).
Proof. intros w. exists []. split; [symmetry; apply app_nil_r | constructor]. Qed.

Lemma appends_transmit (P : Request -> Prop) (r : Request) : P r -> appends P (transmit r).
Proof.
  intros H w. exists [r]. unfold transmit.
  split; [destruct (net w); reflexivity | repeat constructor; exact H].
Qed.

Lemma appends_bind {A B} (P : Request -> Prop) (m : IO A) (k : A -> IO B) :
  appends P m -> (forall a, appends P (k a)) -> appends P (bind m k).
Proof.
  intros Hm Hk w. unfold bind.
  destruct (Hm w) as [n1 [E1 F1]]. destruct (m w) as [a w1]. cbn in E1.
  destruct (Hk a w1) as [n2 [E2 F2]].
  exists (n1 ++ n2). split.
  - rewrite E2, E1, app_assoc. reflexivity.
  - apply Forall_app. split; assumption.
Qed.

Lemma handy_send_command_appends (h : Handy.HandyController) (path : string) (b : Body) :
  appends (fun r => is_put r = true) (Handy._send_command h path b).
Proof.
  unfold Handy._send_command. destruct (Handy.key_set h).
  - apply appends_bind; [apply appends_transmit; reflexivity | intros; apply appends_ret].
  - apply appends_ret.
Qed.

Lemma handy_move_appends (h : Handy.HandyController) (sp dp rng : pyval) :
  appends (fun r => is_put r = true) (Handy.move h sp dp rng).
Proof.
  unfold Handy.move.
  destruct (negb (Handy.key_set h)); [apply appends_ret|].
  destruct (negb (py_is_none sp) && py_eq_zero sp).
  { apply appends_bind; [apply handy_send_command_appends | intros; apply appends_ret]. }
  destruct (py_is_none sp || py_is_none dp || py_is_none rng); [apply appends_ret|].
  apply appends_bind; [apply handy_send_command_appends | intros _].
  apply appends_bind; [apply handy_send_command_appends | intros _].
  destruct (Handy.slide_window h dp rng) as [a b].
  apply appends_bind; [apply handy_send_command_appends | intros _].
  apply appends_bind; [apply handy_send_command_appends | intros _].
  apply appends_ret.
Qed.

Lemma lovense_send_v2_appends (l : Lovense.LovenseController) (cmds : list LovCmd) :
  appends (fun r => is_put r = false) (Lovense._send_v2 l cmds).
Proof.
  unfold Lovense._send_v2. destruct (negb (Lovense.is_configured l)); [apply appends_ret|].
  apply appends_bind; [apply appends_transmit; reflexivity|].
  intros [s|]; apply appends_ret.
Qed.

Lemma lovense_send_legacy_appends (l : Lovense.LovenseController) (c : LegacyCmd) :
  appends (fun r => is_put r = false) (Lovense._send_legacy l c).
Proof.
  unfold Lovense._send_legacy. destruct (negb (Lovense.is_configured l)); [apply appends_ret|].
  apply appends_bind; [apply appends_transmit; reflexivity | intros; apply appends_ret].
Qed.

Lemma lovense_stop_appends (l : Lovense.LovenseController) :
  appends (fun r => is_put r = false) (Lovense.stop l).
Proof.
  unfold Lovense.stop. destruct (negb (Lovense.is_configured l)); [apply appends_ret|].
  apply appends_bind; [apply lovense_send_v2_appends | intros ok].
  apply appends_bind; [|intros; apply appends_ret].
  destruct ok; [apply appends_ret | apply lovense_send_legacy_appends].
Qed.

Lemma lovense_move_appends (l : Lovense.LovenseController) (sp dp rng : pyval) :
  appends (fun r => is_put r = false) (Lovense.move l sp dp rng).
Proof.
  unfold Lovense.move. destruct (negb (Lovense.is_configured l)); [apply appends_ret|].
  destruct (negb (py_is_none sp) && py_eq_zero sp); [apply lovense_stop_appends|].
  apply appends_bind; [apply lovense_send_v2_appends | intros ok].
  apply appends_bind; [|intros; apply appends_ret].
  destruct ok; [apply appends_ret|].
  apply appends_bind; [apply lovense_send_legacy_appends | intros _].
  destruct (negb (Qle_bool _ 0)); [apply lovense_send_legacy_appends | apply appends_ret].
Qed.

Lemma is_handy_set_device_type (d : Device.DeviceController) (v : option string) :
  Device.is_handy (Device.set_device_type d v) =
  negb (match v with Some s => String.eqb (Device.lower s) "lovense" | None => false end).
Proof.
  unfold Device.is_handy, Device.set_device_type. cbn [Device.device_type].
  destruct (match v with Some s => String.eqb (Device.lower s) "lovense" | None => false end)
    eqn:L; cbn [negb].
  - assert (E : Device._normalize_type v = "lovense").
    { apply normalize_type_lovense. destruct v as [s|]; [|discriminate].
      exists s. split; [reflexivity|]. apply String.eqb_eq. exact L. }
    rewrite E. reflexivity.
  - destruct (normalize_type_supported v) as [E|E]; rewrite E; [reflexivity|].
    apply normalize_type_lovense in E. destruct E as [s [-> E]].
    rewrite E in L. discriminate L.
Qed.

(** X12. After [set_device_type(v)], a [move] or [stop] through the
    [DeviceController] sends only Lovense requests when [v] lower-cases to
    ["lovense"], and only Handy PUT requests otherwise (an unknown or empty
    type selects the Handy); the adapter not selected keeps its state. *)
Theorem device_requests_follow_type :
  forall d v w,
    let lov := match v with Some s => String.eqb (Device.lower s) "lovense" | None => false end in
    let d1 := Device.set_device_type d v in
    (forall sp dp rng,
       exists new,
         sent (snd (Device.move d1 sp dp rng w)) = sent w ++ new /\
         Forall (fun r => is_put r = negb lov) new /\
         (if lov then Device.handy (fst (Device.move d1 sp dp rng w)) = Device.handy d
          else Device.lovense (fst (Device.move d1 sp dp rng w)) = Device.lovense d)) /\
    (exists new,
       sent (snd (Device.stop d1 w)) = sent w ++ new /\
       Forall (fun r => is_put r = negb lov) new /\
       (if lov then Device.handy (fst (Device.stop d1 w)) = Device.handy d
        else Device.lovense (fst (Device.stop d1 w)) = Device.lovense d)).
Proof.
  intros d v w lov d1.
  pose proof (is_handy_set_device_type d v) as Hh. fold lov d1 in Hh.
  unfold Device.move, Device.stop. rewrite Hh.
  destruct lov; cbn [negb]; split.
  - intros sp dp rng. unfold bind.
    destruct (lovense_move_appends (Device.lovense d1) sp dp rng w) as [n [E F]].
    destruct (Lovense.move (Device.lovense d1) sp dp rng w) as [l' w'].
    exists n. cbn in E |- *. split; [exact E | split; [exact F | reflexivity]].
  - unfold bind.
    destruct (lovense_stop_appends (Device.lovense d1) w) as [n [E F]].
    destruct (Lovense.stop (Device.lovense d1) w) as [l' w'].
    exists n. cbn in E |- *. split; [exact E | split; [exact F | reflexivity]].
  - intros sp dp rng. unfold bind.
    destruct (handy_move_appends (Device.handy d1) sp dp rng w) as [n [E F]].
    destruct (Handy.move (Device.handy d1) sp dp rng w) as [h' w'].
    exists n. cbn in E |- *. split; [exact E | split; [exact F | reflexivity]].
  - unfold bind, Handy.stop.
    destruct (handy_move_appends (Device.handy d1) (PNum 0) PNone PNone w) as [n [E F]].
    destruct (Handy.move (Device.handy d1) (PNum 0) PNone PNone w) as [h' w'].
    exists n. cbn in E |- *. split; [exact E | split; [exact F | reflexivity]].
Qed.




Lemma merge_patterns_cons (A : Type) (name : A -> string) (ps : list A) (x : A) (ss : list A) :
  merge_patterns A name ps (x :: ss) =
  merge_patterns A name
    (if existsb (fun p => String.eqb (name p) (name x)) ps then ps else ps ++ [x]) ss.
Proof. reflexivity. Qed.

(** X14. The pattern step of [SettingsManager.save] keeps saved pattern
    names unique: from saved patterns with distinct names, the result has
    distinct names, starts with the saved patterns unchanged and appends
    only liked patterns, and has a pattern named like each liked pattern. *)
Theorem merge_patterns_unique_names :
  forall (A : Type) (name : A -> string) (ps ss : list A),
    NoDup (map name ps) ->
    let r := merge_patterns A name ps ss in
    NoDup (map name r) /\
    (exists extra, r = ps ++ extra /\ incl extra ss) /\
    (forall s, In s ss -> In (name s) (map name r)).
Proof.
  intros A name ps ss. revert ps.
  induction ss as [|x ss IH]; intros ps H r; subst r.
  - cbn. split; [exact H|]. split; [exists []; rewrite app_nil_r; split; [reflexivity | intros a []]|].
    intros s [].
  - rewrite merge_patterns_cons.
    set (ps' := if existsb _ ps then ps else ps ++ [x]).
    assert (Hx : In (name x) (map name ps') /\ NoDup (map name ps') /\
                 exists e, ps' = ps ++ e /\ incl e [x]).
    { subst ps'. destruct (existsb (fun p => String.eqb (name p) (name x)) ps) eqn:E.
      - apply existsb_exists in E. destruct E as [p [Hp Ep]]. apply String.eqb_eq in Ep.
        split; [rewrite <- Ep; apply in_map, Hp|]. split; [exact H|].
        exists []. rewrite app_nil_r. split; [reflexivity | intros a []].
      - split; [rewrite map_app; apply in_or_app; right; left; reflexivity|].
        split.
        + rewrite map_app. apply NoDup_app; [exact H | constructor; [intros []|constructor]|].
          intros a Ha [<-|[]]. apply in_map_iff in Ha. destruct Ha as [p [Ep Hp]].
          assert (existsb (fun p => String.eqb (name p) (name x)) ps = true) as E'
            by (apply existsb_exists; exists p; split; [exact Hp | apply String.eqb_eq, Ep]).
          rewrite E in E'. discriminate E'.
        + exists [x]. split; [reflexivity | intros a Ha; exact Ha]. }
    destruct Hx as [Hx [Hn [e [Ee Ie]]]].
    destruct (IH ps' Hn) as [N [[extra [E I]] M]].
    split; [exact N|]. split.
    + exists (e ++ extra). rewrite E, Ee, app_assoc. split; [reflexivity|].
      intros a Ha. apply in_app_or in Ha. destruct Ha as [Ha|Ha].
      * apply Ie in Ha. destruct Ha as [<-|[]]. left. reflexivity.
      * right. apply I, Ha.
    + intros s [<-|Hs]; [|apply M, Hs].
      rewrite E, map_app. apply in_or_app. left. exact Hx.
Qed.

(** Witness: two liked patterns with the same name, one already saved. *)
Lemma merge_patterns_unique_names_witness :
  NoDup (map fst [("Tease", 1%Z)]) /\
  NoDup (map fst (merge_patterns (string * Z) fst [("Tease", 1%Z)]
                    [("Deep", 2%Z); ("Tease", 3%Z); ("Deep", 4%Z)])).
Proof.
  assert (H : NoDup (map fst [("Tease", 1%Z)])) by (repeat constructor; intros []).
  split; [exact H|].
  exact (proj1 (merge_patterns_unique_names (string * Z) fst _ [("Deep", 2%Z); ("Tease", 3%Z); ("Deep", 4%Z)] H)).
Defined.

Lemma find_char_ge (c : Ascii.ascii) (s : string) : (-1 <= find_char c s)%Z.
Proof.
  induction s as [|a r IH]; cbn; [lia|].
  destruct (Ascii.eqb a c); [lia|]. destruct (Z.eqb_spec (find_char c r) (-1)); lia.
Qed.

(** X15. In the Bridge's fallback parse, [end = content.rfind('}') + 1] is
    never [-1], so the test [end != -1] never fails. When the content does
    not parse, contains a ['{'] but no ['}'], the second attempt parses
    [content[start:0]], the empty string, and the Bridge returns its parse
    error. *)
Theorem bridge_brace_fallback_needs_closing_brace :
  (forall content, (rfind_char "}"%char content + 1 <> -1)%Z) /\
  (forall loads status e data content err,
     ~ (400 <= status < 600)%Z ->
     Bridge.extract_content data = Some (Bridge.JStr content) ->
     loads content = inr err ->
     find_char "{"%char content <> (-1)%Z ->
     rfind_char "}"%char content = (-1)%Z ->
     Bridge._talk_to_llm loads (Bridge.HttpResponse status e (Bridge.BodyJson data)) =
       match loads "" with
       | inl v => v
       | inr _ => Bridge.err_result ("LLM Parse Error: " ++ err)
       end).
Proof.
  split.
  - intros content. pose proof (rfind_char_ge "}"%char content). lia.
  - intros loads status e data content err Hs Hd Hl Hf Hr.
    unfold Bridge._talk_to_llm.
    replace (Z.leb 400 status && Z.ltb status 600) with false
      by (destruct (Z.leb_spec 400 status), (Z.ltb_spec status 600); cbn; lia).
    rewrite Hd, Hl, Hr. cbv zeta. change (-1 + 1)%Z with 0%Z.
    pose proof (find_char_ge "{"%char content) as G.
    replace (Z.eqb (find_char "{"%char content) (-1)) with false
      by (symmetry; apply Z.eqb_neq, Hf).
    unfold py_slice.
    replace (Z.ltb (find_char "{"%char content) 0) with false
      by (symmetry; apply Z.ltb_ge; lia).
    reflexivity.
Qed.

(** Witness: content with an opening brace only. *)
Lemma bridge_brace_fallback_needs_closing_brace_witness :
  Bridge._talk_to_llm (fun _ => inr "Expecting value")
    (Bridge.HttpResponse 200 "" (Bridge.BodyJson
       (Bridge.JObj [("message", Bridge.JObj [("content", Bridge.JStr "{oops")])])))
  = Bridge.err_result ("LLM Parse Error: " ++ "Expecting value").
Proof.
  exact (proj2 bridge_brace_fallback_needs_closing_brace (fun _ => inr "Expecting value") 200 ""
           (Bridge.JObj [("message", Bridge.JObj [("content", Bridge.JStr "{oops")])])
           "{oops" "Expecting value" ltac:(lia) eq_refl eq_refl ltac:(discriminate) eq_refl).
Defined.

Lemma count_ev_app (p : loop_event -> bool) (l1 l2 : list loop_event) :
  count_ev p (l1 ++ l2) = (count_ev p l1 + count_ev p l2)%nat.
Proof. induction l1 as [|e l1 IH]; cbn; [reflexivity|]. destruct (p e); rewrite IH; reflexivity. Qed.

Lemma signal_clears_app (l1 l2 : list loop_event) :
  signal_clears (l1 ++ l2) = (signal_clears l1 + signal_clears l2)%nat.
Proof. induction l1 as [|e l1 IH]; cbn; [reflexivity|]. destruct e; cbn; rewrite ?IH; reflexivity. Qed.

Lemma dispatch_no_mood (r : response) (t : Q) : count_ev is_mood (dispatch r t) = O.
Proof.
  unfold dispatch.
  destruct (r_chat r) as [c|]; [destruct (String.eqb c "")|]; destruct (r_move r); reflexivity.
Qed.

Lemma dispatch_ends_in_sleep (r : response) (t : Q) : exists pre, dispatch r t = pre ++ [LSleep t].
Proof. unfold dispatch. eexists. rewrite app_assoc. reflexivity. Qed.

Lemma auto_loop_counts (envs : list iter_env) :
  let (evs, _) := Auto.auto_loop envs in
  bridge_calls evs = iterations_before_stop envs /\
  count_ev is_mood evs = O /\ signal_clears evs = O /\
  (evs = [] \/ exists pre t, evs = pre ++ [LSleep t]).
Proof.
  induction envs as [|e rest IH]; cbn -[Auto.iteration]; [repeat split; left; reflexivity|].
  destruct (ie_stop e); [repeat split; left; reflexivity|].
  destruct (Auto.auto_loop rest) as [evs exited].
  destruct IH as [B [M [C T]]].
  assert (Ie : bridge_calls (Auto.iteration e) = 1%nat /\ count_ev is_mood (Auto.iteration e) = O /\
               signal_clears (Auto.iteration e) = O /\
               exists pre t, Auto.iteration e = pre ++ [LSleep t]).
  { unfold Auto.iteration. cbv zeta.
    destruct (has_move (ie_response e)).
    - destruct (dispatch_counts (ie_response e) (ie_sleep e)) as [D1 D2].
      destruct (dispatch_ends_in_sleep (ie_response e) (ie_sleep e)) as [pre Ep].
      cbn. rewrite D1, D2, dispatch_no_mood. repeat split.
      exists (LBridgeCall (with_message Auto.base_prompt (ie_msg e) "**USER FEEDBACK TO CONSIDER:** "
        "**INSTRUCTION:** Analyze the user's feedback. Let it influence your next move and what you say. For example, if they say 'faster', increase the speed.") :: pre), (ie_sleep e).
      rewrite Ep. reflexivity.
    - repeat split. exists [LBridgeCall (with_message Auto.base_prompt (ie_msg e) "**USER FEEDBACK TO CONSIDER:** "
        "**INSTRUCTION:** Analyze the user's feedback. Let it influence your next move and what you say. For example, if they say 'faster', increase the speed.")], 1%Q.
      reflexivity. }
  destruct Ie as [IB [IM [IC [pre [t IT]]]]].
  rewrite bridge_calls_app, count_ev_app, signal_clears_app, IB, IM, IC, B, M, C.
  split; [reflexivity|]. split; [reflexivity|]. split; [reflexivity|].
  right. destruct T as [->|[pre' [t' ->]]].
  - exists pre, t. rewrite app_nil_r. exact IT.
  - exists (Auto.iteration e ++ pre'), t'. rewrite app_assoc. reflexivity.
Qed.

(** X16. [auto_mode_logic], when it returns (on the stop event), has made
    exactly one Bridge call per iteration run; it never updates the mood or
    clears the edge signal, and it has no closing line: its trace is empty or
    ends with an iteration's sleep. *)
Theorem auto_mode_one_call_per_iteration :
  forall envs evs, Auto.auto_mode_logic envs = Some evs ->
    bridge_calls evs = iterations_before_stop envs /\
    count_ev is_mood evs = O /\ signal_clears evs = O /\
    (evs = [] \/ exists pre t, evs = pre ++ [LSleep t]).
Proof.
  intros envs evs H. unfold Auto.auto_mode_logic in H.
  pose proof (auto_loop_counts envs) as C.
  destruct (Auto.auto_loop envs) as [evs' []]; [|discriminate H].
  injection H as <-. exact C.
Qed.

(** Witness: two iterations, then the stop event. *)
Lemma auto_mode_one_call_per_iteration_witness :
  let envs := [Samples.env false false Samples.a_move;
               Samples.env false false Samples.no_move;
               Samples.env true false Samples.no_move] in
  exists evs, Auto.auto_mode_logic envs = Some evs /\ bridge_calls evs = 2%nat.
Proof.
  intros envs. eexists. split; [reflexivity|].
  refine (proj1 (auto_mode_one_call_per_iteration envs _ _)). reflexivity.
Defined.

Lemma edging_iteration_counts (st : Edging.edge_state) (e : iter_env) :
  let '(st1, _, ev) := Edging.iteration st e in
  Edging.edge_count st1 = (Edging.edge_count st + signal_clears ev)%nat /\
  bridge_calls ev = 1%nat /\ count_ev is_mood ev = 1%nat /\ (signal_clears ev <= 1)%nat.
Proof.
  unfold Edging.iteration.
  destruct (dispatch_counts (ie_response e) (ie_sleep e)) as [D1 D2].
  pose proof (dispatch_no_mood (ie_response e) (ie_sleep e)) as D3.
  destruct (Edging.signal st || ie_signal e); destruct (has_move (ie_response e));
    cbn -[dispatch]; rewrite ?D1, ?D2, ?D3; (split; [lia|]); repeat split; lia.
Qed.

(** X17. Across an edging session, [edge_count] grows by exactly the number
    of times the loop cleared the edge signal, and every iteration run makes
    exactly one Bridge call and one mood update; so an edge is counted at
    most once per iteration. *)
Theorem edging_counters :
  forall st envs,
    let '(evs, st', _) := Edging.edging_loop st envs in
    Edging.edge_count st' = (Edging.edge_count st + signal_clears evs)%nat /\
    bridge_calls evs = iterations_before_stop envs /\
    count_ev is_mood evs = iterations_before_stop envs /\
    (signal_clears evs <= iterations_before_stop envs)%nat.
Proof.
  intros st envs. revert st.
  induction envs as [|e rest IH]; intros st; cbn -[Edging.iteration]; [repeat split; lia|].
  destruct (ie_stop e); [cbn; repeat split; lia|].
  pose proof (edging_iteration_counts st e) as I.
  destruct (Edging.iteration st e) as [[st1 ph] ev].
  specialize (IH st1).
  destruct (Edging.edging_loop st1 rest) as [[evs' st''] ex].
  destruct I as [I1 [I2 [I3 I4]]]. destruct IH as [H1 [H2 [H3 H4]]].
  rewrite signal_clears_app, bridge_calls_app, count_ev_app. lia.
Qed.

Lemma milking_iters_stop (k i m : nat) (env : nat -> iter_env) :
  (m < k)%nat -> (forall j, (j < m)%nat -> ie_stop (env (i + j)%nat) = false) ->
  ie_stop (env (i + m)%nat) = true ->
  snd (Milking.iters k i env) = true /\ bridge_calls (fst (Milking.iters k i env)) = m.
Proof.
  revert i m. induction k as [|k IH]; intros i m Hm Hb Hs; [lia|].
  cbn -[Milking.iteration].
  destruct m as [|m].
  - rewrite Nat.add_0_r in Hs. rewrite Hs. split; reflexivity.
  - assert (ie_stop (env i) = false) as H0 by (rewrite <- (Nat.add_0_r i); apply Hb; lia).
    rewrite H0.
    destruct (IH (S i) m ltac:(lia)) as [IH1 IH2].
    + intros j Hj. replace (S i + j)%nat with (i + S j)%nat by lia. apply Hb. lia.
    + replace (S i + m)%nat with (i + S m)%nat by lia. exact Hs.
    + destruct (Milking.iters k (S i) env) as [evs broke]. cbn in IH1, IH2. cbn [fst snd].
      split; [exact IH1|]. rewrite bridge_calls_app, milking_iteration_one_call, IH2. reflexivity.
Qed.

(** X18. Milking mode cancelled before its draw is used up makes no closing
    move: when the stop event is first seen at the check of iteration [m]
    (with [m] below the drawn count), the loop has made exactly [m] Bridge
    calls and the closing line is not sent. Likewise when the stop event is
    set only during the last iteration. *)
Theorem milking_cancel_no_closing :
  forall draw env,
    (forall m sa, (m < Z.to_nat draw)%nat ->
       (forall j, (j < m)%nat -> ie_stop (env j) = false) -> ie_stop (env m) = true ->
       Milking.milking_mode_logic draw env sa = fst (Milking.iters (Z.to_nat draw) O env) /\
       bridge_calls (Milking.milking_mode_logic draw env sa) = m) /\
    ((forall i, ie_stop (env i) = false) ->
       Milking.milking_mode_logic draw env true = fst (Milking.iters (Z.to_nat draw) O env) /\
       bridge_calls (Milking.milking_mode_logic draw env true) = Z.to_nat draw).
Proof.
  intros draw env. split.
  - intros m sa Hm Hb Hs.
    destruct (milking_iters_stop (Z.to_nat draw) O m env Hm Hb Hs) as [B C].
    unfold Milking.milking_mode_logic.
    destruct (Milking.iters (Z.to_nat draw) O env) as [evs broke].
    cbn in B, C |- *. subst broke. rewrite app_nil_r. split; [reflexivity | exact C].
  - intros Hs. destruct (milking_iters_no_stop (Z.to_nat draw) O env Hs) as [B C].
    unfold Milking.milking_mode_logic.
    destruct (Milking.iters (Z.to_nat draw) O env) as [evs broke].
    cbn in B, C |- *. subst broke. rewrite app_nil_r. split; [reflexivity | exact C].
Qed.

(** Witness: a draw of 8, stopped at the check of the third iteration. *)
Lemma milking_cancel_no_closing_witness :
  let env := fun i => Samples.env (Nat.leb 2 i) false Samples.a_move in
  bridge_calls (Milking.milking_mode_logic 8 env false) = 2%nat.
Proof.
  intros env.
  refine (proj2 (proj1 (milking_cancel_no_closing 8 env) 2%nat false _ _ _)).
  - cbn. lia.
  - intros j Hj. destruct j as [|[|j]]; [reflexivity | reflexivity | lia].
  - reflexivity.
Defined.

Lemma lastn_idem {A} (n : nat) (l m : list A) :
  lastn n (lastn n l ++ m) = lastn n (l ++ m).
Proof.
  unfold lastn.
  destruct (Nat.le_gt_cases (List.length l) n) as [Hl|Hl].
  - replace (Nat.sub (List.length l) n) with O by lia. reflexivity.
  - rewrite !length_app, length_skipn, !skipn_app, skipn_skipn, length_skipn.
    f_equal; f_equal; lia.
Qed.

Lemma relay_append_lastn (q : list string) (x : string) :
  (List.length q <= 5)%nat -> Relay.append q x = lastn 5 (q ++ [x]).
Proof.
  intros H. unfold Relay.append, lastn, Relay.maxlen. rewrite length_app. cbn [List.length].
  destruct (Nat.ltb_spec (List.length q) 5).
  - replace (Nat.sub (List.length q + 1) 5) with O by lia. reflexivity.
  - replace (Nat.sub (List.length q + 1) 5) with 1%nat by lia.
    destruct q; cbn in *; [lia | reflexivity].
Qed.

(** X19. The relay queue keeps the newest five messages: from a queue of at
    most five, appending any messages leaves exactly the last five of all
    messages held, in order (fewer if there are fewer), so it never holds
    more than five; and popping an empty queue yields [None]. *)
Theorem relay_keeps_last_five :
  (forall q xs, (List.length q <= 5)%nat ->
     Relay.push_all q xs = lastn 5 (q ++ xs) /\ (List.length (Relay.push_all q xs) <= 5)%nat) /\
  Relay._check_for_user_message [] = (None, []).
Proof.
  split; [|reflexivity].
  assert (E : forall xs q, (List.length q <= 5)%nat -> Relay.push_all q xs = lastn 5 (q ++ xs)).
  { induction xs as [|x xs IH]; intros q H.
    - unfold lastn. rewrite app_nil_r. cbn. replace (Nat.sub (List.length q) 5) with O by lia.
      reflexivity.
    - change (Relay.push_all q (x :: xs)) with (Relay.push_all (Relay.append q x) xs).
      rewrite relay_append_lastn by exact H.
      rewrite IH.
      + rewrite lastn_idem, <- app_assoc. reflexivity.
      + unfold lastn. rewrite length_skipn. lia. }
  intros q xs H. rewrite (E xs q H). split; [reflexivity|].
  unfold lastn. rewrite length_skipn. lia.
Qed.

(** Witness: seven messages pushed onto an empty queue. *)
Lemma relay_keeps_last_five_witness :
  Relay.push_all [] ["a"; "b"; "c"; "d"; "e"; "f"; "g"] = ["c"; "d"; "e"; "f"; "g"].
Proof.
  rewrite (proj1 (proj1 relay_keeps_last_five [] ["a"; "b"; "c"; "d"; "e"; "f"; "g"] ltac:(cbn; lia))).
  reflexivity.
Defined.

Lemma py_int_nonneg (q : Q) : (0 <= q)%Q -> App.py_int q = Qfloor q.
Proof.
  intros H. unfold App.py_int. apply Qle_bool_iff in H. rewrite H. reflexivity.
Qed.

Lemma like_range_bounds (x : Q) :
  (0 <= x <= 100)%Q ->
  let a := App.py_int (py_max 0 (x - 5)) in
  let b := App.py_int (py_min 100 (x + 5)) in
  (0 <= a <= b /\ b <= 100 /\ b - a <= 10)%Z.
Proof.
  intros Hx a b.
  assert (Ha : (0 <= py_max 0 (x - 5) /\ x - 5 <= py_max 0 (x - 5) /\ py_max 0 (x - 5) <= x)%Q)
    by (destruct (py_max_cases 0 (x - 5)) as [[-> ?]|[-> ?]]; lra).
  assert (Hb : (py_min 100 (x + 5) <= 100 /\ py_min 100 (x + 5) <= x + 5 /\ x <= py_min 100 (x + 5))%Q)
    by (destruct (py_min_cases 100 (x + 5)) as [[-> ?]|[-> ?]]; lra).
  subst a b.
  rewrite (py_int_nonneg (py_max 0 (x - 5))) by lra.
  rewrite (py_int_nonneg (py_min 100 (x + 5))) by lra.
  set (ma := py_max 0 (x - 5)) in *. set (mb := py_min 100 (x + 5)) in *.
  assert (F0 : (0 <= Qfloor ma)%Z) by (rewrite <- (Qfloor_Z 0); apply Qfloor_resp_le; change (inject_Z 0) with 0%Q; lra).
  assert (F1 : (Qfloor ma <= Qfloor mb)%Z) by (apply Qfloor_resp_le; lra).
  assert (F2 : (Qfloor mb <= 100)%Z) by (rewrite <- (Qfloor_Z 100); apply Qfloor_resp_le; change (inject_Z 100) with 100%Q; exact (proj1 Hb)).
  split; [lia|]. split; [lia|].
  destruct (Z_le_gt_dec (Qfloor mb - Qfloor ma) 10) as [W|W]; [exact W|exfalso].
  assert (G : (Qfloor ma + 11 <= Qfloor mb)%Z) by lia.
  rewrite Zle_Qle, inject_Z_plus in G.
  pose proof (Qfloor_le mb) as L1. pose proof (Qlt_floor ma) as L2.
  rewrite inject_Z_plus in L2. change (inject_Z 11) with 11%Q in G. change (inject_Z 1) with 1%Q in L2.
  lra.
Qed.

(** X20. [like_last_move_route] stores, for a Handy whose recorded speed and
    depth are in [0, 100] (as every [move] leaves them), a speed range and a
    depth range that are ordered, lie within [0, 100] and are at most 10
    wide. *)
Theorem like_ranges_within_bounds :
  forall h, handy_inv h ->
    let '((s1, s2), (d1, d2)) :=
      App.like_ranges (Handy.last_relative_speed h) (inject_Z (Handy.last_depth_pos h)) in
    (0 <= s1 <= s2 /\ s2 <= 100 /\ s2 - s1 <= 10 /\
     0 <= d1 <= d2 /\ d2 <= 100 /\ d2 - d1 <= 10)%Z.
Proof.
  intros h [Hs [Hd1 Hd2]]. unfold App.like_ranges.
  assert (Hd : (0 <= inject_Z (Handy.last_depth_pos h) <= 100)%Q).
  { split; [change 0%Q with (inject_Z 0) | change 100%Q with (inject_Z 100)]; rewrite <- Zle_Qle; lia. }
  pose proof (like_range_bounds _ Hs) as S. pose proof (like_range_bounds _ Hd) as D.
  cbv zeta in S, D. lia.
Qed.

(** Witness: the state after a [move(57, 98, 40)] on the default Handy. *)
Lemma like_ranges_within_bounds_witness :
  let h := Handy.mkHandy "key" 50 98 57 10 80 100 0 in
  App.like_ranges (Handy.last_relative_speed h) (inject_Z (Handy.last_depth_pos h))
  = ((52, 62), (93, 100))%Z /\
  (0 <= 93 <= 100 /\ 100 <= 100 /\ 100 - 93 <= 10)%Z.
Proof.
  intros h. split; [vm_compute; reflexivity|].
  pose proof (like_ranges_within_bounds h) as W.
  assert (I : handy_inv h) by (unfold handy_inv; cbn; split; [split; vm_compute; intro E; discriminate E | lia]).
  specialize (W I). vm_compute in W. lia.
Defined.

Lemma prefix_app_l (a b t : string) :
  String.prefix (a ++ b) t = true -> String.prefix a t = true.
Proof.
  revert t. induction a as [|c a IH]; intros t H; [destruct t; reflexivity|].
  destruct t as [|c' t]; cbn in H |- *; [discriminate H|].
  destruct (Ascii.ascii_dec c c'); [apply IH, H | discriminate H].
Qed.

Lemma contains_app_l (a b t : string) :
  App.contains (a ++ b) t = true -> App.contains a t = true.
Proof.
  induction t as [|c t IH]; intros H.
  - change (App.contains (a ++ b) "") with (if String.prefix (a ++ b) "" then true else false) in H.
    change (App.contains a "") with (if String.prefix a "" then true else false).
    destruct (String.prefix (a ++ b) "") eqn:P; [|discriminate H].
    rewrite (prefix_app_l a b "" P). reflexivity.
  - change (App.contains (a ++ b) (String c t))
      with (if String.prefix (a ++ b) (String c t) then true else App.contains (a ++ b) t) in H.
    change (App.contains a (String c t))
      with (if String.prefix a (String c t) then true else App.contains a t).
    destruct (String.prefix (a ++ b) (String c t)) eqn:P.
    + rewrite (prefix_app_l a b _ P). reflexivity.
    + destruct (String.prefix a (String c t)); [reflexivity | apply IH, H].
Qed.

(** X21. The stop words take precedence over every other chat command:
    a message containing any of them stops, whether auto mode runs or not.
    Hence a message reaching the auto-off branch contains "manual" or
    "my turn"; the listed "stop auto" alone always takes the stop branch,
    since it contains "stop". *)
Theorem chat_stop_words_take_precedence :
  (forall text active w, In w App.STOP_COMMANDS -> App.contains w text = true ->
     App._handle_chat_commands text active = App.CmdStop) /\
  (forall text active, App._handle_chat_commands text active = App.CmdAutoStop ->
     App.contains "manual" text = true \/ App.contains "my turn" text = true).
Proof.
  split.
  - intros text active w Hw Hc. unfold App._handle_chat_commands.
    replace (App.any_in App.STOP_COMMANDS text) with true; [reflexivity|].
    symmetry. apply existsb_exists. exists w. split; assumption.
  - intros text active H. unfold App._handle_chat_commands in H.
    destruct (App.any_in App.STOP_COMMANDS text) eqn:S; [discriminate H|].
    destruct (App.any_in App.AUTO_OFF_WORDS text) eqn:O.
    2:{ exfalso. cbn -[App.any_in App.contains] in H.
        repeat match type of H with context [if ?b then _ else _] => destruct b end;
        discriminate H. }
    unfold App.any_in, App.AUTO_OFF_WORDS in O. cbn [existsb] in O.
    destruct (App.contains "manual" text); [left; reflexivity|].
    destruct (App.contains "my turn" text); [right; reflexivity|].
    exfalso. rewrite orb_false_r in O. cbn in O.
    assert (C : App.contains "stop" text = true) by exact (contains_app_l "stop" " auto" text O).
    unfold App.any_in, App.STOP_COMMANDS in S. cbn [existsb] in S. rewrite C in S. discriminate S.
Qed.

(** Witness: "hold on" stops even while auto mode runs, and "stop auto"
    stops rather than switching auto mode off. *)
Lemma chat_stop_words_take_precedence_witness :
  App._handle_chat_commands "hold on" true = App.CmdStop /\
  App._handle_chat_commands "stop auto" true = App.CmdStop.
Proof.
  split.
  - apply (proj1 chat_stop_words_take_precedence "hold on" true "hold"); [cbn; tauto | reflexivity].
  - apply (proj1 chat_stop_words_take_precedence "stop auto" true "stop"); [cbn; tauto | reflexivity].
Defined.
